(** * simulakra: campaign completion monitor and results extraction

    A shallow embedding of [PhishingCampaignManager.wait_for_campaign_completion]
    and [PhishingCampaignManager.extract_campaign_results] (phishbot.py).

    The service replies are the result of [response.json()], so every datum
    the two methods touch is a JSON tree seen through Python's builtins.
    Conventions of the embedding:
    - JSON numbers are integers (the statistics are counters); floats are
      not represented;
    - strings are ASCII text: [str.lower] and [repr] act on the bytes below
      128 and leave the others alone;
    - the clock counts microseconds, the resolution of [datetime]; it moves
      only while a request is in flight or while the monitor sleeps;
    - a [dict] is the list of its items in insertion order, keys unique. *)

From Stdlib Require Import ZArith String Ascii List Bool Lia DecimalString.
Import ListNotations.
Open Scope string_scope.
Open Scope Z_scope.
Set Warnings "-register-all".

(** ** Python values and the builtins the two methods use *)

Module Py.

Inductive value : Type :=
| VNone
| VBool (b : bool)
| VInt (z : Z)
| VStr (s : string)
| VList (l : list value)
| VDict (d : list (string * value)).

(** The exception classes that can surface; all derive from [Exception]. *)
Inductive exn : Type :=
| KeyError
| TypeError
| AttributeError
| RequestFailed.

Inductive outcome (A : Type) : Type :=
| Ok (a : A)
| Raise (e : exn).
Arguments Ok {A} a.
Arguments Raise {A} e.

Definition rbind {A B} (r : outcome A) (k : A -> outcome B) : outcome B :=
  match r with
  | Ok a => k a
  | Raise e => Raise e
  end.

Fixpoint lookup (k : string) (d : list (string * value)) : option value :=
  match d with
  | [] => None
  | (k', v) :: d' => if String.eqb k k' then Some v else lookup k d'
  end.

Definition has_key (k : string) (d : list (string * value)) : bool :=
  match lookup k d with Some _ => true | None => false end.

(** The item under [k], or [default] when the key is absent. *)
Definition item_or (d : list (string * value)) (k : string) (default : value) : value :=
  match lookup k d with Some x => x | None => default end.

(** [v.get(k, default)]: only a dict has the method. *)
Definition get (v : value) (k : string) (default : value) : outcome value :=
  match v with
  | VDict d => Ok (item_or d k default)
  | _ => Raise AttributeError
  end.

(** [v.get(k)]: the default is [None]. *)
Definition get_none (v : value) (k : string) : outcome value := get v k VNone.

(** [v[k]] with a string key. *)
Definition getitem (v : value) (k : string) : outcome value :=
  match v with
  | VDict d => match lookup k d with Some x => Ok x | None => Raise KeyError end
  | _ => Raise TypeError
  end.

(** [k in v] for a dict [v]; used after [v.get] has already succeeded. *)
Definition contains_key (v : value) (k : string) : bool :=
  match v with
  | VDict d => has_key k d
  | _ => false
  end.

(** Truth value of an object, as [if v:] and [not v] test it. *)
Definition truthy (v : value) : bool :=
  match v with
  | VNone => false
  | VBool b => b
  | VInt z => negb (z =? 0)
  | VStr s => negb (String.eqb s "")
  | VList l => match l with [] => false | _ => true end
  | VDict d => match d with [] => false | _ => true end
  end.

(** [len(v)] *)
Definition len (v : value) : outcome Z :=
  match v with
  | VList l => Ok (Z.of_nat (List.length l))
  | VDict d => Ok (Z.of_nat (List.length d))
  | VStr s => Ok (Z.of_nat (String.length s))
  | _ => Raise TypeError
  end.

Fixpoint chars (s : string) : list value :=
  match s with
  | EmptyString => []
  | String c s' => VStr (String c EmptyString) :: chars s'
  end.

(** The items a [for] loop draws from [v]: the elements of a list, the keys
    of a dict, the characters of a string. *)
Definition iter (v : value) : outcome (list value) :=
  match v with
  | VList l => Ok l
  | VDict d => Ok (map (fun kv => VStr (fst kv)) d)
  | VStr s => Ok (chars s)
  | _ => Raise TypeError
  end.

(** Numbers as the comparison operators see them: [bool] is a subclass of
    [int]. *)
Definition as_int (v : value) : option Z :=
  match v with
  | VInt z => Some z
  | VBool b => Some (if b then 1 else 0)
  | _ => None
  end.

(** [a > b] and [a < b]; ordering a number against anything else raises. *)
Definition gt (a b : value) : outcome bool :=
  match as_int a, as_int b with
  | Some x, Some y => Ok (x >? y)
  | _, _ => Raise TypeError
  end.

Definition lt (a b : value) : outcome bool := gt b a.

(** [max(a, b)]: [a] unless [b > a]. *)
Definition max2 (a b : value) : outcome value :=
  rbind (gt b a) (fun bigger => Ok (if bigger then b else a)).

(** [a == b] where [a] is known to be a number. *)
Definition num_eq (a b : value) : bool :=
  match as_int a, as_int b with
  | Some x, Some y => x =? y
  | _, _ => false
  end.

(** [v == s] for a string literal [s]. *)
Definition eq_str (v : value) (s : string) : bool :=
  match v with
  | VStr t => String.eqb t s
  | _ => false
  end.

(** [v in [s1, s2, ...]] for string literals. *)
Definition in_strs (v : value) (ss : list string) : bool :=
  existsb (eq_str v) ss.

(** *** Strings *)

Definition lower_ascii (c : ascii) : ascii :=
  let n := N_of_ascii c in
  if ((65 <=? n) && (n <=? 90))%N then ascii_of_N (n + 32) else c.

Fixpoint lower_string (s : string) : string :=
  match s with
  | EmptyString => EmptyString
  | String c s' => String (lower_ascii c) (lower_string s')
  end.

(** [v.lower()]: only a str has the method. *)
Definition lower (v : value) : outcome string :=
  match v with
  | VStr s => Ok (lower_string s)
  | _ => Raise AttributeError
  end.

(** [needle in hay] for two strings. *)
Fixpoint substring_of (needle hay : string) : bool :=
  String.prefix needle hay ||
  match hay with
  | EmptyString => false
  | String _ hay' => substring_of needle hay'
  end.

Definition dquote : ascii := ascii_of_N 34.
Definition squote : ascii := ascii_of_N 39.
Definition backslash : ascii := ascii_of_N 92.

Fixpoint mem_char (c : ascii) (s : string) : bool :=
  match s with
  | EmptyString => false
  | String c' s' => Ascii.eqb c c' || mem_char c s'
  end.

Definition hex_digit (n : N) : ascii :=
  if (n <? 10)%N then ascii_of_N (48 + n) else ascii_of_N (87 + n).

Definition escape_char (quote c : ascii) : string :=
  let n := N_of_ascii c in
  let bs := String backslash EmptyString in
  if Ascii.eqb c backslash then bs ++ bs
  else if Ascii.eqb c quote then bs ++ String quote EmptyString
  else if (n =? 10)%N then bs ++ "n"
  else if (n =? 13)%N then bs ++ "r"
  else if (n =? 9)%N then bs ++ "t"
  else if ((n <? 32) || (n =? 127))%N
       then bs ++ "x" ++ String (hex_digit (n / 16)) (String (hex_digit (n mod 16)) EmptyString)
  else String c EmptyString.

Fixpoint escape (quote : ascii) (s : string) : string :=
  match s with
  | EmptyString => EmptyString
  | String c s' => escape_char quote c ++ escape quote s'
  end.

(** [repr(s)] of a str: single quotes unless the text has one and no
    double quote. *)
Definition repr_str (s : string) : string :=
  let quote := if mem_char squote s && negb (mem_char dquote s) then dquote else squote in
  String quote (escape quote s ++ String quote EmptyString).

Definition repr_int (z : Z) : string := NilZero.string_of_int (Z.to_int z).

(** [repr(v)] *)
Fixpoint repr (v : value) : string :=
  match v with
  | VNone => "None"
  | VBool b => if b then "True" else "False"
  | VInt z => repr_int z
  | VStr s => repr_str s
  | VList l =>
      "[" ++ (fix items (l : list value) : string :=
                match l with
                | [] => ""
                | x :: r =>
                    match r with
                    | [] => repr x
                    | _ :: _ => repr x ++ ", " ++ items r
                    end
                end) l ++ "]"
  | VDict d =>
      "{" ++ (fix items (d : list (string * value)) : string :=
                match d with
                | [] => ""
                | (k, x) :: r =>
                    match r with
                    | [] => repr_str k ++ ": " ++ repr x
                    | _ :: _ => repr_str k ++ ": " ++ repr x ++ ", " ++ items r
                    end
                end) d ++ "}"
  end.

(** [f"{v}"]: a str prints as itself, anything else as its [repr]. *)
Definition format (v : value) : string :=
  match v with
  | VStr s => s
  | _ => repr v
  end.

(** *** Sets of hashable values *)

(** [hash(v)] fails on lists and dicts. *)
Definition hashable (v : value) : bool :=
  match v with
  | VList _ | VDict _ => false
  | _ => true
  end.

(** Equality of two hashable values; [True == 1]. *)
Definition key_eqb (a b : value) : bool :=
  match a, b with
  | VNone, VNone => true
  | VStr s, VStr t => String.eqb s t
  | _, _ =>
      match as_int a, as_int b with
      | Some x, Some y => x =? y
      | _, _ => false
      end
  end.

Definition pyset : Type := list value.

(** [v in s] *)
Definition set_mem (v : value) (s : pyset) : outcome bool :=
  if hashable v then Ok (existsb (key_eqb v) s) else Raise TypeError.

(** [s.add(v)] *)
Definition set_add (v : value) (s : pyset) : outcome pyset :=
  if hashable v
  then Ok (if existsb (key_eqb v) s then s else v :: s)
  else Raise TypeError.

End Py.
Export Py.

(** ** More of Python's [str] *)

Module PyText.

(** The characters [str.strip] removes from ASCII text. *)
Definition is_space (c : ascii) : bool :=
  let n := N_of_ascii c in
  (((9 <=? n) && (n <=? 13)) || ((28 <=? n) && (n <=? 32)))%N.

(** [s.lstrip()] *)
Fixpoint lstrip (s : string) : string :=
  match s with
  | EmptyString => EmptyString
  | String c s' => if is_space c then lstrip s' else s
  end.

(** [s.rstrip()] *)
Fixpoint rstrip (s : string) : string :=
  match s with
  | EmptyString => EmptyString
  | String c s' =>
      match rstrip s' with
      | EmptyString => if is_space c then EmptyString else String c EmptyString
      | kept => String c kept
      end
  end.

(** [s.strip()] *)
Definition strip (s : string) : string := rstrip (lstrip s).

(** [v.strip()]: only a str has the method. *)
Definition strip_of (v : value) : outcome string :=
  match v with
  | VStr s => Ok (strip s)
  | _ => Raise AttributeError
  end.

(** [s.rstrip(c)] for a single character [c]. *)
Fixpoint rstrip_char (c : ascii) (s : string) : string :=
  match s with
  | EmptyString => EmptyString
  | String c' s' =>
      match rstrip_char c s' with
      | EmptyString => if Ascii.eqb c' c then EmptyString else String c' EmptyString
      | kept => String c' kept
      end
  end.

Definition upper_ascii (c : ascii) : ascii :=
  let n := N_of_ascii c in
  if ((97 <=? n) && (n <=? 122))%N then ascii_of_N (n - 32) else c.

(** [s.upper()] *)
Fixpoint upper_string (s : string) : string :=
  match s with
  | EmptyString => EmptyString
  | String c s' => String (upper_ascii c) (upper_string s')
  end.

(** [v or default] *)
Definition or_else (v default : value) : value :=
  if truthy v then v else default.

End PyText.
Export PyText.

Notation "'let?' x ':=' r 'in' k" := (rbind r (fun x => k))
  (at level 10, x pattern, r at level 100, k at level 200).

(** ** The world outside: the campaign service, the clock and the log *)

Inductive endpoint : Type := Campaign | Summary.

Inductive io : Type :=
| Request (ep : endpoint) (campaign_id : value)
| Sleep (duration : Z)
| Log (message : string).

(** What one HTTP round trip yields: the time it took and either the decoded
    body or the exception [_make_request] raised. *)
Record reply : Type := { latency : N; answer : outcome value }.

(** [GoPhishAPIClient], the two read operations used here.  The first
    argument is the number of requests already made, so that the service
    may answer differently as time goes by. *)
Record GoPhishAPIClient : Type := {
  get_campaign : nat -> value -> reply;
  get_campaign_summary : nat -> value -> reply
}.

(** The trace stamps every event with the clock, as the log format does. *)
Record world : Type := {
  clock : Z;
  requests : nat;
  trace : list (Z * io)
}.

Definition M (A : Type) : Type := world -> outcome A * world.

Definition ret {A} (a : A) : M A := fun w => (Ok a, w).

Definition bind {A B} (m : M A) (k : A -> M B) : M B :=
  fun w =>
    match m w with
    | (Ok a, w') => k a w'
    | (Raise e, w') => (Raise e, w')
    end.

Notation "x <- m ;; k" := (bind m (fun x => k))
  (at level 61, m at next level, right associativity).
Notation "m ;; k" := (bind m (fun _ => k))
  (at level 61, right associativity).

Definition lift {A} (r : outcome A) : M A := fun w => (r, w).

(** [try: body / except Exception as e: handler] *)
Definition try_except {A} (body : M A) (handler : exn -> M A) : M A :=
  fun w =>
    match body w with
    | (Ok a, w') => (Ok a, w')
    | (Raise e, w') => handler e w'
    end.

Definition emit (e : io) (w : world) : world :=
  {| clock := clock w; requests := requests w; trace := trace w ++ [(clock w, e)] |}.

Definition log (message : string) : M unit := fun w => (Ok tt, emit (Log message) w).

(** [datetime.now()] *)
Definition now : M Z := fun w => (Ok (clock w), w).

(** [time.sleep(seconds)] *)
Definition sleep (duration : Z) : M unit :=
  fun w =>
    let w' := emit (Sleep duration) w in
    (Ok tt, {| clock := clock w' + duration; requests := requests w'; trace := trace w' |}).

Definition second : Z := 1000000.
Definition minute : Z := 60 * second.
Definition hour : Z := 60 * minute.

(** [timedelta(hours=h)] for a whole number of hours. *)
Definition hours (h : Z) : Z := h * hour.

(** [a or b] and [a and b] on conditions that may raise: the right operand
    is not evaluated when the left one decides. *)
Definition py_or (a b : outcome bool) : outcome bool :=
  let? x := a in if x then Ok true else b.

Definition py_and (a b : outcome bool) : outcome bool :=
  let? x := a in if x then b else Ok false.

(** ** The manager *)

(** One row of the extraction's output, a dict with these five keys. *)
Record AffectedUser : Type := {
  first_name : value;
  last_name : value;
  email : value;
  event_time : value;
  event_type : value
}.

Definition click_indicators : list string :=
  [ "clicked link"; "clicked"; "link clicked";
    "submitted data"; "submitted"; "data submitted";
    "form submitted"; "credentials submitted";
    "email clicked"; "user clicked" ].

(** [any(indicator in message for indicator in click_indicators)] *)
Definition is_click_event (message : string) : bool :=
  existsb (fun indicator => substring_of indicator message) click_indicators.

(** [event.get('email', details.get('email', ''))]; the default is computed
    before the call, so [details] must be a dict in any case. *)
Definition resolve_email (event details : value) : outcome value :=
  let? fallback := get details "email" (VStr "") in
  get event "email" fallback.

(** [f"{email}_{message}"] *)
Definition event_key (email : value) (message : string) : string :=
  format email ++ "_" ++ message.

Definition scan_state : Type := (list AffectedUser * pyset)%type.

(** Method 1, the body of [for event in timeline]. *)
Definition scan_event (event : value) (st : scan_state) : outcome scan_state :=
  let '(affected_users, processed_emails) := st in
  let? raw := get event "message" (VStr "") in
  let? message := lower raw in
  if is_click_event message then
    let? details := get event "details" (VDict []) in
    let? email := resolve_email event details in
    let key := VStr (event_key email message) in
    let? seen := set_mem key processed_emails in
    if seen then Ok st
    else
      let? processed_emails' := set_add key processed_emails in
      if truthy email then
        let? first := get details "first_name" (VStr "") in
        let? last := get details "last_name" (VStr "") in
        let? time := get event "time" (VStr "") in
        let? type := get event "message" (VStr message) in
        Ok ((affected_users ++
               [ {| first_name := first; last_name := last; email := email;
                    event_time := time; event_type := type |} ])%list,
            processed_emails')
      else Ok (affected_users, processed_emails')
  else Ok st.

Fixpoint scan_timeline (timeline : list value) (st : scan_state) : outcome scan_state :=
  match timeline with
  | [] => Ok st
  | event :: rest => let? st' := scan_event event st in scan_timeline rest st'
  end.

(** Method 2: the test that a result record shows a click or a submission. *)
Definition qualifies (result : value) : outcome bool :=
  let? status := get_none result "status" in
  if in_strs status ["Clicked Link"; "Submitted Data"] then Ok true
  else if contains_key result "clicked" || contains_key result "submitted_data" then Ok true
  else let? reported := get result "reported" (VBool false) in Ok (truthy reported).

(** Method 2, the body of [for result in campaign_results]. *)
Definition scan_result (result : value) (st : scan_state) : outcome scan_state :=
  let '(affected_users, processed_emails) := st in
  let? hit := qualifies result in
  if hit then
    let? email := get result "email" (VStr "") in
    let? fresh := py_and (Ok (truthy email))
                         (let? seen := set_mem email processed_emails in Ok (negb seen)) in
    if fresh then
      let? processed_emails' := set_add email processed_emails in
      let? status := get_none result "status" in
      let type := if contains_key result "submitted_data" || eq_str status "Submitted Data"
                  then "Submitted Data" else "Clicked Link" in
      let? first := get result "first_name" (VStr "") in
      let? last := get result "last_name" (VStr "") in
      let? time := get result "send_date" (VStr "") in
      Ok ((affected_users ++
             [ {| first_name := first; last_name := last; email := email;
                  event_time := time; event_type := VStr type |} ])%list,
          processed_emails')
    else Ok st
  else Ok st.

Fixpoint scan_results (campaign_results : list value) (st : scan_state) : outcome scan_state :=
  match campaign_results with
  | [] => Ok st
  | result :: rest => let? st' := scan_result result st in scan_results rest st'
  end.

(** Method 3, the body of [for i, target in enumerate(targets)]; [stamp] is
    [datetime.now().isoformat()]. *)
Definition reconstruct_target (clicked submitted : value) (stamp : string)
    (i : Z) (target : value) (affected_users : list AffectedUser)
    : outcome (list AffectedUser) :=
  let? most := max2 clicked submitted in
  let? counted := lt (VInt i) most in
  if counted then
    let? email := get target "email" (VStr "") in
    if truthy email then
      let? is_submission := lt (VInt i) submitted in
      let type := if is_submission then "Submitted Data" else "Clicked Link" in
      let? first := get target "first_name" (VStr "") in
      let? last := get target "last_name" (VStr "") in
      Ok (affected_users ++
            [ {| first_name := first; last_name := last; email := email;
                 event_time := VStr stamp; event_type := VStr type |} ])%list
    else Ok affected_users
  else Ok affected_users.

Fixpoint reconstruct_targets (clicked submitted : value) (stamp : string)
    (i : Z) (targets : list value) (affected_users : list AffectedUser)
    : outcome (list AffectedUser) :=
  match targets with
  | [] => Ok affected_users
  | target :: rest =>
      let? affected_users' := reconstruct_target clicked submitted stamp i target affected_users in
      reconstruct_targets clicked submitted stamp (i + 1) rest affected_users'
  end.

Definition no_users (affected_users : list AffectedUser) : bool :=
  match affected_users with [] => true | _ => false end.

Section Manager.

(** [self.api], and the rendering [datetime.isoformat] of a clock reading in
    the host's local time. *)
Variable api : GoPhishAPIClient.
Variable isoformat : Z -> string.

(** [self.api.get_campaign(id)] and [self.api.get_campaign_summary(id)] *)
Definition request (ep : endpoint) (campaign_id : value) : M value :=
  fun w =>
    let r := match ep with
             | Campaign => get_campaign api (requests w) campaign_id
             | Summary => get_campaign_summary api (requests w) campaign_id
             end in
    let w' := emit (Request ep campaign_id) w in
    (answer r,
     {| clock := clock w' + Z.of_N (latency r);
        requests := S (requests w');
        trace := trace w' |}).

(** *** extract_campaign_results *)

(** Method 2: scan the per-target results of the campaign. *)
Definition method2 (campaign : value) (st : scan_state) : M scan_state :=
  log "Timeline is empty, trying alternative extraction method...";;
  campaign_id <- lift (getitem campaign "id");;
  campaign_details <- request Campaign campaign_id;;
  campaign_results <- lift (get campaign_details "results" (VList []));;
  _ <- lift (len campaign_results);;
  log "Found campaign results";;
  results <- lift (iter campaign_results);;
  lift (scan_results results st).

(** Method 3: entries made up from the statistics and the first group. *)
Definition method3 (campaign results : value) (affected_users : list AffectedUser)
    : M (list AffectedUser) :=
  stats <- lift (get results "stats" (VDict []));;
  clicked <- lift (get stats "clicked" (VInt 0));;
  submitted <- lift (get stats "submitted_data" (VInt 0));;
  active <- lift (py_or (gt clicked (VInt 0)) (gt submitted (VInt 0)));;
  if active then
    log "Campaign stats show clicks and submissions, but no specific user data found";;
    log "Creating generic affected user entries based on campaign group";;
    campaign_id <- lift (getitem campaign "id");;
    campaign_details <- request Campaign campaign_id;;
    groups <- lift (get campaign_details "groups" (VList []));;
    all_groups <- lift (iter groups);;
    match all_groups with
    | [] => ret affected_users
    | group :: _ =>
        targets <- lift (get group "targets" (VList []));;
        all_targets <- lift (iter targets);;
        t <- now;;
        lift (reconstruct_targets clicked submitted (isoformat t) 0 all_targets affected_users)
    end
  else ret affected_users.

(** The body of the [try] block. *)
Definition extract_body (campaign : value) : M (list AffectedUser) :=
  campaign_id <- lift (getitem campaign "id");;
  results <- request Summary campaign_id;;
  timeline <- lift (get results "timeline" (VList []));;
  size <- lift (len timeline);;
  log "Processing timeline events from campaign";;
  events <- lift (iter timeline);;
  st <- lift (scan_timeline events ([], []));;
  st <- (if no_users (fst st) && (size =? 0) then method2 campaign st else ret st);;
  affected_users <- (if no_users (fst st) then method3 campaign results (fst st)
                     else ret (fst st));;
  log "Extracted affected users from campaign results";;
  ret affected_users.

Definition extract_campaign_results (campaign : value) : M (list AffectedUser) :=
  try_except (extract_body campaign)
             (fun _ => log "Error extracting campaign results";; ret []).

(** *** wait_for_campaign_completion *)

Definition check_interval : Z := 600 * second.
Definition no_activity_timeout : Z := 30 * minute.

(** What one pass through the loop body decides: return the campaign, or go
    round again with this value of [last_activity_check]. *)
Inductive verdict : Type :=
| Done (campaign : value)
| Again (last_activity_check : option Z).

(** [sent > 0 and sent == total] *)
Definition all_sent (sent total : value) : outcome bool :=
  py_and (gt sent (VInt 0)) (Ok (num_eq sent total)).

(** [clicked > 0 or submitted > 0] *)
Definition has_activity (clicked submitted : value) : outcome bool :=
  py_or (gt clicked (VInt 0)) (gt submitted (VInt 0)).

(** The [try] block inside the loop, up to its last statement: fetch the
    campaign and its summary and decide. *)
Definition check_campaign (campaign_id : value) (start_time : Z)
    (last_activity_check : option Z) : M verdict :=
  campaign <- request Campaign campaign_id;;
  campaign_summary <- request Summary campaign_id;;
  status <- lift (get campaign "status" (VStr "Unknown"));;
  stats <- lift (get campaign_summary "stats" (VDict []));;
  total <- lift (get stats "total" (VInt 0));;
  sent <- lift (get stats "sent" (VInt 0));;
  _ <- lift (get stats "opened" (VInt 0));;
  clicked <- lift (get stats "clicked" (VInt 0));;
  submitted <- lift (get stats "submitted_data" (VInt 0));;
  log "Campaign status";;
  log "Campaign stats";;
  if in_strs status ["Completed"; "Finished"] then
    log "Campaign completed successfully";;
    ret (Done campaign)
  else
    delivered <- lift (all_sent sent total);;
    if delivered then
      active <- lift (has_activity clicked submitted);;
      if active then
        current_time <- now;;
        match last_activity_check with
        | None =>
            log "Campaign has activity. Starting 30-minute activity timeout.";;
            ret (Again (Some current_time))
        | Some seen =>
            if current_time - seen >? no_activity_timeout then
              log "No new activity for 30 minutes. Considering campaign complete.";;
              ret (Done campaign)
            else ret (Again last_activity_check)
        end
      else if num_eq sent total then
        t <- now;;
        if t - start_time >? hour then
          log "All emails sent, no activity after 1 hour. Considering campaign complete.";;
          ret (Done campaign)
        else ret (Again last_activity_check)
      else ret (Again last_activity_check)
    else ret (Again last_activity_check).

(** One pass through the loop body: the checks, then [time.sleep] unless
    they returned, all under [except Exception], which logs and sleeps. *)
Definition poll (campaign_id : value) (start_time : Z)
    (last_activity_check : option Z) : M verdict :=
  try_except
    (v <- check_campaign campaign_id start_time last_activity_check;;
     match v with
     | Done _ => ret v
     | Again _ => sleep check_interval;; ret v
     end)
    (fun _ =>
       log "Error checking campaign status";;
       sleep check_interval;;
       ret (Again last_activity_check)).

(** What follows the loop: the warning and one more fetch, outside any
    [try]. *)
Definition last_fetch (campaign_id : value) : M (option value) :=
  log "Campaign monitoring timed out";;
  campaign <- request Campaign campaign_id;;
  ret (Some campaign).

(** [while datetime.now() < timeout_time: ...] followed by the last fetch.
    [fuel] bounds the number of passes; [None] means it ran out. *)
Fixpoint monitor (fuel : nat) (campaign_id : value) (start_time timeout_time : Z)
    (last_activity_check : option Z) : M (option value) :=
  t <- now;;
  if t <? timeout_time then
    match fuel with
    | O => ret None
    | S fuel' =>
        v <- poll campaign_id start_time last_activity_check;;
        match v with
        | Done campaign => ret (Some campaign)
        | Again last => monitor fuel' campaign_id start_time timeout_time last
        end
    end
  else last_fetch campaign_id.

(** Every pass that goes round again sleeps [check_interval], so this many
    passes reach the deadline. *)
Definition passes (timeout : Z) : nat := S (Z.to_nat (timeout / check_interval)).

(** [timeout] is [timedelta(hours=timeout_hours)]. *)
Definition wait_for_campaign_completion (campaign_id : value) (timeout : Z)
    : M (option value) :=
  start_time <- now;;
  let timeout_time := start_time + timeout in
  log "Monitoring campaign for completion";;
  monitor (passes timeout) campaign_id start_time timeout_time None.

End Manager.

(** ** The rest of the manager: targets, lookups, groups and warnings *)

(** A method that ends in [return] or in [sys.exit(code)]. *)
Inductive exit_status (A : Type) : Type :=
| Returned (a : A)
| Exit (code : Z).
Arguments Returned {A} a.
Arguments Exit {A} code.

(** *** read_targets_csv *)

(** What [open] and [csv.DictReader] give: no such file, or the header
    ([None] for an empty file) and the rows as dicts.  Failures of the
    decoder or of the CSV parser are not represented. *)
Inductive csv_file : Type :=
| NoSuchFile
| Table (fieldnames : option (list string)) (rows : list value).

Definition required_fields : list string :=
  ["FirstName"; "LastName"; "Email"; "Position"].

(** [all(field in reader.fieldnames for field in required_fields)]; a
    missing header makes [in] raise. *)
Definition has_required_fields (fieldnames : option (list string)) : outcome bool :=
  match fieldnames with
  | None => Raise TypeError
  | Some names =>
      Ok (forallb (fun field => existsb (String.eqb field) names) required_fields)
  end.

Definition target_of (first_name last_name email position : string) : value :=
  VDict [("first_name", VStr first_name); ("last_name", VStr last_name);
         ("email", VStr email); ("position", VStr position)].

(** The body of [for row_num, row in enumerate(reader, start=2)]. *)
Definition read_row (row : value) (targets : list value) : outcome (list value) :=
  let? first_name := get_none row "FirstName" in
  let? last_name := get_none row "LastName" in
  let? email := get_none row "Email" in
  let? position := get_none row "Position" in
  let? first_name := strip_of (or_else first_name (VStr "")) in
  let? last_name := strip_of (or_else last_name (VStr "")) in
  let? email := strip_of (or_else email (VStr "")) in
  let? position := strip_of (or_else position (VStr "")) in
  if negb (truthy (VStr email)) then Ok targets
  else if negb (substring_of "@" email) then Ok targets
  else Ok (targets ++ [target_of first_name last_name (lower_string email) position])%list.

Fixpoint read_rows (rows : list value) (targets : list value) : outcome (list value) :=
  match rows with
  | [] => Ok targets
  | row :: rest => let? targets' := read_row row targets in read_rows rest targets'
  end.

(** Both handlers end in [sys.exit(1)], and so does the [ValueError] raised
    for a missing column. *)
Definition read_targets_csv (file : csv_file) : exit_status (list value) :=
  match file with
  | NoSuchFile => Exit 1
  | Table fieldnames rows =>
      match has_required_fields fieldnames with
      | Ok true =>
          match read_rows rows [] with
          | Ok targets => Returned targets
          | Raise _ => Exit 1
          end
      | Ok false => Exit 1
      | Raise _ => Exit 1
      end
  end.

(** *** get_smtp_profile, get_template, get_landing_page *)

(** The operations of [GoPhishAPIClient] used before the launch, each with
    the reply it gets. *)
Record GoPhishSetup : Type := {
  get_smtp_profiles : outcome value;
  get_templates : outcome value;
  get_pages : outcome value;
  get_groups : outcome value;
  create_group : value -> outcome value
}.

(** [for item in items: if item.get('name') == name: return item] *)
Fixpoint find_named (name : string) (items : list value) : outcome (option value) :=
  match items with
  | [] => Ok None
  | item :: rest =>
      let? found := get_none item "name" in
      if eq_str found name then Ok (Some item) else find_named name rest
  end.

(** The shape the three lookups share: fetch the list, return the first
    item of that name; [sys.exit(3)] when there is none, and from the
    handler when anything raised. *)
Definition get_by_name (listing : outcome value) (name : string) : exit_status value :=
  match (let? fetched := listing in
         let? items := iter fetched in
         find_named name items) with
  | Ok (Some item) => Returned item
  | Ok None => Exit 3
  | Raise _ => Exit 3
  end.

Definition get_smtp_profile (api : GoPhishSetup) (name : string) : exit_status value :=
  get_by_name (get_smtp_profiles api) name.

Definition get_template (api : GoPhishSetup) (name : string) : exit_status value :=
  get_by_name (get_templates api) name.

Definition get_landing_page (api : GoPhishSetup) (name : string) : exit_status value :=
  get_by_name (get_pages api) name.

(** *** create_target_group *)

(** [for target in targets: gophish_targets.append({...})] *)
Fixpoint gophish_targets (targets : list value) : outcome (list value) :=
  match targets with
  | [] => Ok []
  | target :: rest =>
      let? first_name := getitem target "first_name" in
      let? last_name := getitem target "last_name" in
      let? email := getitem target "email" in
      let? position := getitem target "position" in
      let? others := gophish_targets rest in
      Ok (VDict [("first_name", first_name); ("last_name", last_name);
                 ("email", email); ("position", position)] :: others)
  end.

Definition group_data (group_name : string) (targets : list value) : value :=
  VDict [("name", VStr group_name); ("targets", VList targets)].

(** The body of the [try] block: an existing group of that name is returned
    (after its targets are counted for the log), else one is created. *)
Definition create_target_group_body (api : GoPhishSetup) (targets : list value)
    (group_name : string) : outcome value :=
  let? existing_groups := get_groups api in
  let? groups := iter existing_groups in
  let? found := find_named group_name groups in
  match found with
  | Some group =>
      let? members := get group "targets" (VList []) in
      let? _ := len members in
      Ok group
  | None =>
      let? packed := gophish_targets targets in
      create_group api (group_data group_name packed)
  end.

Definition create_target_group (api : GoPhishSetup) (targets : list value)
    (group_name : string) : exit_status value :=
  match create_target_group_body api targets group_name with
  | Ok group => Returned group
  | Raise _ => Exit 3
  end.

(** *** send_warning_emails *)

(** An affected user as the dict the extraction appends. *)
Definition user_dict (u : AffectedUser) : value :=
  VDict [("first_name", first_name u); ("last_name", last_name u);
         ("email", email u); ("event_time", event_time u);
         ("event_type", event_type u)].

Inductive mail_event : Type :=
| Attempt (email first_name last_name : value)
| Warned (email : value)
| NotWarned (email : value)
| Pause (seconds : Z)
| Skipped.

(** The mail transport with the configuration it needs, as
    [send_warning_email] meets it: the n-th attempt goes through or raises
    (a missing variable, a refused login, a lost connection ...). *)
Definition transport : Type := nat -> value -> outcome unit.

(** [send_warning_email]: everything happens under [except Exception], so
    the attempt is logged as sent or as failed and the call returns. *)
Definition send_warning_email (smtp : transport) (attempts : nat)
    (email first_name last_name : value) : list mail_event :=
  Attempt email first_name last_name ::
  match smtp attempts email with
  | Ok _ => [Warned email]
  | Raise _ => [NotWarned email]
  end.

(** [send_warning_emails]: the loop, as the events it causes and how it
    ends.  The handler formats [user['email']] again, so a user without
    that key makes the handler itself raise, and the loop stops there. *)
Fixpoint send_warning_emails (smtp : transport) (attempts : nat)
    (affected_users : list value) : list mail_event * outcome unit :=
  match affected_users with
  | [] => ([], Ok tt)
  | user :: rest =>
      match (let? email := getitem user "email" in
             let? first_name := getitem user "first_name" in
             let? last_name := getitem user "last_name" in
             Ok (email, first_name, last_name)) with
      | Ok (email, first_name, last_name) =>
          let (later, ending) := send_warning_emails smtp (S attempts) rest in
          ((send_warning_email smtp attempts email first_name last_name
              ++ Pause 2 :: later)%list,
           ending)
      | Raise _ =>
          match getitem user "email" with
          | Ok _ =>
              let (later, ending) := send_warning_emails smtp attempts rest in
              (Skipped :: later, ending)
          | Raise e => ([], Raise e)
          end
      end
  end.

(** *** debug_campaign_results (debug_campaign.py): its scan of the timeline *)

Definition debug_keywords : list string := ["click"; "submit"; "data"; "link"].

(** [any(keyword in message.lower() for keyword in [...])] *)
Definition is_debug_event (message : value) : outcome bool :=
  let? lowered := lower message in
  Ok (existsb (fun keyword => substring_of keyword lowered) debug_keywords).

(** The body of the second [for event in timeline]. *)
Definition debug_event (event : value) (affected_users : list AffectedUser)
    : outcome (list AffectedUser) :=
  let? message := get event "message" (VStr "") in
  let? hit := is_debug_event message in
  if hit then
    let? details := get event "details" (VDict []) in
    let? email := resolve_email event details in
    let? first := get details "first_name" (VStr "") in
    let? last := get details "last_name" (VStr "") in
    let? time := get event "time" (VStr "") in
    Ok (affected_users ++
          [ {| first_name := first; last_name := last; email := email;
               event_time := time; event_type := message |} ])%list
  else Ok affected_users.

Fixpoint debug_scan (timeline : list value) (affected_users : list AffectedUser)
    : outcome (list AffectedUser) :=
  match timeline with
  | [] => Ok affected_users
  | event :: rest =>
      let? affected_users' := debug_event event affected_users in
      debug_scan rest affected_users'
  end.

(** *** GoPhishAPIClient._make_request *)

Inductive verb : Type := GET | POST | PUT | DELETE.

(** A response: whether [raise_for_status] passes, [.text], and [.json()]
    ([None] when the text is not JSON). *)
Record response : Type := {
  status_ok : bool;
  text : string;
  json : option value
}.

(** [requests.Session]: verb, URL and JSON payload give a response, or
    [None] when the request raises a [RequestException]. *)
Definition session : Type := verb -> string -> option value -> option response.

Record api_client : Type := {
  base_url : string;
  http : session
}.

(** [GoPhishAPIClient.__init__] *)
Definition new_client (url : string) (http : session) : api_client :=
  {| base_url := rstrip_char "/" url; http := http |}.

Inductive api_result : Type :=
| Body (decoded : value)
| UnsupportedMethod
| ApiRequestFailed.

Definition verb_of (method : string) : option verb :=
  let m := upper_string method in
  if String.eqb m "GET" then Some GET
  else if String.eqb m "POST" then Some POST
  else if String.eqb m "PUT" then Some PUT
  else if String.eqb m "DELETE" then Some DELETE
  else None.

Definition api_url (client : api_client) (endpoint : string) : string :=
  base_url client ++ "/api/" ++ endpoint.

(** [_make_request]: the [ValueError] for an unknown method is not a
    [RequestException] and leaves as it is; a failed request, an error
    status and (with requests 2.27 or later) an undecodable body leave as
    [Exception("API request failed")]. *)
Definition make_request (client : api_client) (method endpoint : string)
    (data : option value) : api_result :=
  match verb_of method with
  | None => UnsupportedMethod
  | Some v =>
      let payload := match v with POST | PUT => data | GET | DELETE => None end in
      match http client v (api_url client endpoint) payload with
      | None => ApiRequestFailed
      | Some r =>
          if status_ok r then
            if truthy (VStr (text r)) then
              match json r with
              | Some decoded => Body decoded
              | None => ApiRequestFailed
              end
            else Body (VDict [])
          else ApiRequestFailed
      end
  end.

(** ** Observations on a run *)

(** [keeps R m]: running [m] takes every world to one related to it by [R]. *)
Definition keeps {A} (R : world -> world -> Prop) (m : M A) : Prop :=
  forall w, R w (snd (m w)).


(** Relations that runs compose along. *)
Class Frame (R : world -> world -> Prop) : Prop := {
  frame_refl : forall w, R w w;
  frame_trans : forall a b c, R a b -> R b c -> R a c
}.

(** The clock did not move and no request was made. *)
Definition at_rest (w w' : world) : Prop :=
  clock w' = clock w /\ requests w' = requests w.

(** The clock did not go back. *)
Definition not_before (w w' : world) : Prop := clock w <= clock w'.

(** The clock moved forward by at most [d]. *)
Definition within (d : Z) (w w' : world) : Prop :=
  clock w <= clock w' <= clock w + d.

(** Every request is answered within [limit]. *)
Definition responsive (api : GoPhishAPIClient) (limit : Z) : Prop :=
  forall n campaign_id,
    Z.of_N (latency (get_campaign api n campaign_id)) <= limit /\
    Z.of_N (latency (get_campaign_summary api n campaign_id)) <= limit.

(** The trace grew by events that all satisfy [P]. *)
Definition appends (P : io -> Prop) (w w' : world) : Prop :=
  exists l, trace w' = (trace w ++ l)%list /\ Forall (fun e => P (snd e)) l.



(** The key under which method 1 files a user: the email and the
    lower-cased message, joined. *)
Definition user_key (u : AffectedUser) : value :=
  match event_type u with
  | VStr raw => VStr (event_key (email u) (lower_string raw))
  | _ => VNone
  end.

(** Every user found so far has its key in the set, and no two share one. *)
Definition filed (st : scan_state) : Prop :=
  (forall u, In u (fst st) -> existsb (key_eqb (user_key u)) (snd st) = true) /\
  NoDup (map user_key (fst st)).




(** The loop of the monitor, standing at its check with the reference time
    [last] in the world [w], stands there again with [seen] in [w2]: at
    once, or after passes that were entered before the deadline and went
    round again. *)
Inductive loops_to (api : GoPhishAPIClient) (campaign_id : value)
    (start_time timeout_time : Z) : option Z -> world -> option Z -> world -> Prop :=
  | loops_here (last : option Z) (w : world) :
      loops_to api campaign_id start_time timeout_time last w last w
  | loops_round (last next seen : option Z) (w w1 w2 : world) :
      clock w < timeout_time ->
      poll api campaign_id start_time last w = (Ok (Again next), w1) ->
      loops_to api campaign_id start_time timeout_time next w1 seen w2 ->
      loops_to api campaign_id start_time timeout_time last w seen w2.

(** The loop checks of the call [wait_for_campaign_completion campaign_id
    timeout] made in [w]: the loop starts after the first log line, with no
    reference time, the start time and the deadline being read in [w]. *)
Definition checks_of_call (api : GoPhishAPIClient) (campaign_id : value)
    (timeout : Z) (w : world) (seen : option Z) (w1 : world) : Prop :=
  loops_to api campaign_id (clock w) (clock w + timeout)
    None (emit (Log "Monitoring campaign for completion") w) seen w1.

(** No stop condition fires during the call: none of the passes it makes,
    each entered at a loop check before the deadline, decides to return. *)
Definition no_stop_in_call (api : GoPhishAPIClient) (campaign_id : value)
    (timeout : Z) (w : world) : Prop :=
  forall seen w1 campaign,
    checks_of_call api campaign_id timeout w seen w1 ->
    clock w1 < clock w + timeout ->
    fst (poll api campaign_id (clock w) seen w1) <> Ok (Done campaign).

(** No pass on this campaign decides to return, whatever the start time,
    the reference time and the world it is made in: more than one call
    needs, and what a service with one constant answer offers. *)
Definition never_stops (api : GoPhishAPIClient) (campaign_id : value) : Prop :=
  forall start_time last w campaign,
    fst (poll api campaign_id start_time last w) <> Ok (Done campaign).

(** A call during which no stop condition fires returns a campaign with the
    clock exactly on the deadline. *)
Definition returns_at_deadline (api : GoPhishAPIClient) (campaign_id : value)
    (timeout : Z) (w : world) : Prop :=
  no_stop_in_call api campaign_id timeout w ->
  exists campaign,
    fst (wait_for_campaign_completion api campaign_id timeout w) = Ok (Some campaign) /\
    clock (snd (wait_for_campaign_completion api campaign_id timeout w)) = clock w + timeout.



(** The clock reading after the two requests of a pass started in [w]. *)
Definition fetched_at (api : GoPhishAPIClient) (campaign_id : value) (w : world) : Z :=
  clock w
  + Z.of_N (latency (get_campaign api (requests w) campaign_id))
  + Z.of_N (latency (get_campaign_summary api (S (requests w)) campaign_id)).

(** The events of [w'] that were not yet in [w]. *)
Definition since (w w' : world) : list io :=
  map snd (skipn (List.length (trace w)) (trace w')).

(** At most [n] requests were made. *)
Definition asks (n : nat) (w w' : world) : Prop :=
  (requests w <= requests w' <= requests w + n)%nat.

(** No request was made. *)
Definition no_request (w w' : world) : Prop := requests w' = requests w.

(** The label is one of the two that methods 2 and 3 give. *)
Definition clicked_or_submitted (u : AffectedUser) : Prop :=
  event_type u = VStr "Clicked Link" \/ event_type u = VStr "Submitted Data".

(** The user was found at an event whose lower-cased message holds one of
    the click indicators. *)
Definition from_click_event (u : AffectedUser) : Prop :=
  exists raw, event_type u = VStr raw /\ is_click_event (lower_string raw) = true.

(** A row as [csv.DictReader] yields it: a dict whose cells are strings, or
    [None] where the line was too short. *)
Definition cell_ok (v : value) : bool :=
  match v with
  | VStr _ | VNone => true
  | _ => false
  end.

Definition reader_row (row : value) : Prop :=
  match row with
  | VDict d => forall k v, lookup k d = Some v -> cell_ok v = true
  | _ => False
  end.

(** A target as the reader keeps it: four string fields, the email
    trimmed, lower-cased and holding an at sign. *)
Definition kept_target (target : value) : Prop :=
  exists first_name last_name address position,
    target = target_of first_name last_name address position /\
    substring_of "@" address = true /\
    lower_string address = address /\
    strip address = address /\
    strip first_name = first_name /\
    strip last_name = last_name /\
    strip position = position.

(** The item carries the name. *)
Definition named (name : string) (item : value) : Prop :=
  exists found, get_none item "name" = Ok found /\ eq_str found name = true.

Definition not_named (name : string) (item : value) : Prop :=
  exists found, get_none item "name" = Ok found /\ eq_str found name = false.

(** The addresses a run of warnings tried, in order, and the seconds it
    paused in all. *)
Fixpoint attempted (events : list mail_event) : list value :=
  match events with
  | [] => []
  | Attempt address _ _ :: rest => address :: attempted rest
  | _ :: rest => attempted rest
  end.

Fixpoint paused (events : list mail_event) : Z :=
  match events with
  | [] => 0
  | Pause seconds :: rest => seconds + paused rest
  | _ :: rest => paused rest
  end.

(** What method 2 keeps true of its state: every email found is in the
    set, no email was found twice, and the labels are the two it has. *)
Definition tallied (st : scan_state) : Prop :=
  (forall u, In u (fst st) -> In (email u) (snd st)) /\
  NoDup (map email (fst st)) /\
  Forall clicked_or_submitted (fst st).

(** The text is empty or starts with something that is no space. *)
Definition starts_clean (s : string) : Prop :=
  match s with
  | EmptyString => True
  | String c _ => is_space c = false
  end.

(** [item] is the first item of that name in the listing: the listing was
    fetched, it can be iterated, [item] has the name and every item before
    it has a name, another one. *)
Definition first_named (name : string) (listing : outcome value) (item : value) : Prop :=
  exists fetched before after,
    listing = Ok fetched /\
    iter fetched = Ok (before ++ item :: after)%list /\
    named name item /\
    Forall (not_named name) before.

(** What a lookup by name gives for a listing: it returns an item exactly
    when that item is the first of that name in the listing, and it leaves
    by no other exit code than 3. *)
Definition first_of_that_name (name : string) (listing : outcome value)
    (result : exit_status value) : Prop :=
  (forall item, first_named name listing item <-> result = Returned item) /\
  (forall code, result = Exit code -> code = 3).

(** ** Sample replies and services, used to run the two methods *)

Module Samples.

Definition boot : world := {| clock := 0; requests := 0; trace := [] |}.

(** A service that always answers the same, each request taking [delay]. *)
Definition steady (delay : N) (campaign summary : outcome value) : GoPhishAPIClient :=
  {| get_campaign := fun _ _ => {| latency := delay; answer := campaign |};
     get_campaign_summary := fun _ _ => {| latency := delay; answer := summary |} |}.

(** A service whose first [n] requests fail. *)
Definition flaky (n : nat) (campaign summary : value) : GoPhishAPIClient :=
  {| get_campaign := fun k _ =>
       {| latency := 0; answer := if Nat.ltb k n then Raise RequestFailed else Ok campaign |};
     get_campaign_summary := fun k _ =>
       {| latency := 0; answer := if Nat.ltb k n then Raise RequestFailed else Ok summary |} |}.

Definition stamp (t : Z) : string := repr_int t.

Definition event (message address : string) : value :=
  VDict [("message", VStr message); ("email", VStr address);
         ("time", VStr "2024-05-01T10:00:00Z")].

Definition person (first address : string) : list (string * value) :=
  [("first_name", VStr first); ("last_name", VStr "Doe"); ("email", VStr address)].

Definition stats_of (sent clicked submitted : Z) : list (string * value) :=
  [("total", VInt 3); ("sent", VInt sent); ("opened", VInt 0);
   ("clicked", VInt clicked); ("submitted_data", VInt submitted)].

Definition summary_of (timeline : list value) (sent clicked submitted : Z)
    : list (string * value) :=
  [("timeline", VList timeline); ("stats", VDict (stats_of sent clicked submitted))].

Definition ann := person "Ann" "ann@example.com".
Definition bob := person "Bob" "bob@example.com".
Definition cy := person "Cy" "cy@example.com".

Definition staff : list (string * value) :=
  [("name", VStr "Targets-2024-05"); ("targets", VList [VDict ann; VDict bob; VDict cy])].

Definition visitors : value :=
  VDict [("name", VStr "Visitors"); ("targets", VList [VDict (person "Di" "di@example.com")])].

Definition campaign_of (status : string) (results : list value) : list (string * value) :=
  [("id", VInt 7); ("status", VStr status);
   ("results", VList results); ("groups", VList [VDict staff; visitors])].

Definition sample_campaign : value := VDict (campaign_of "Completed" []).

(** A campaign still being sent: one mail out of three has left. *)
Definition sending (delay : N) : GoPhishAPIClient :=
  steady delay (Ok (VDict (campaign_of "In progress" [])))
               (Ok (VDict (summary_of [] 1 0 0))).

(** All mails sent, one click counted. *)
Definition clicked_once (status : string) : GoPhishAPIClient :=
  steady 0 (Ok (VDict (campaign_of status [])))
           (Ok (VDict (summary_of [] 3 1 0))).

(** The service of the statistics-only case: nothing in the timeline,
    nothing in the results, two clicks and one submission counted. *)
Definition counters_only : GoPhishAPIClient :=
  steady 0 (Ok (VDict (campaign_of "Completed" [])))
           (Ok (VDict (summary_of [] 3 2 1))).

(** A timeline of one click, the address written with capitals. *)
Definition capitals : GoPhishAPIClient :=
  steady 0 (Ok (VDict (campaign_of "Completed" [])))
           (Ok (VDict (summary_of [event "Clicked Link" "Ann@Example.com"] 3 1 0))).

(** A timeline that is not empty and holds no click or submission. *)
Definition opened_only : GoPhishAPIClient :=
  steady 0 (Ok (VDict (campaign_of "Completed" [])))
           (Ok (VDict (summary_of [event "Email Opened" "ann@example.com"] 3 0 0))).

(** Two events of two different people whose keys read the same:
    ["ann@example.com" + "_" + "alt_clicked link"] and
    ["ann@example.com_alt" + "_" + "clicked link"]. *)
Definition colliding : list value :=
  [event "alt_Clicked Link" "ann@example.com"; event "Clicked Link" "ann@example.com_alt"].

Definition collision : GoPhishAPIClient :=
  steady 0 (Ok (VDict (campaign_of "Completed" [])))
           (Ok (VDict (summary_of colliding 3 2 0))).

(** A result record of somebody who reported the mail and did nothing else. *)
Definition reporter : list (string * value) :=
  [("email", VStr "dana@example.com"); ("first_name", VStr "Dana");
   ("status", VStr "Email Sent"); ("reported", VBool true)].

(** A timeline of one click followed by an event that is [None]. *)
Definition spoiled : GoPhishAPIClient :=
  steady 0 (Ok (VDict (campaign_of "Completed" [])))
           (Ok (VDict (summary_of [event "Clicked Link" "ann@example.com"; VNone] 3 1 0))).

(** All mails sent and nothing clicked or submitted. *)
Definition idle : GoPhishAPIClient :=
  steady 0 (Ok (VDict (campaign_of "In progress" [])))
           (Ok (VDict (summary_of [] 3 0 0))).

(** Two result records of the same address. *)
Definition clicker : list (string * value) :=
  [("email", VStr "dana@example.com"); ("status", VStr "Clicked Link")].

Definition header : list string := ["FirstName"; "LastName"; "Email"; "Position"].

Definition row (first last address position : string) : value :=
  VDict [("FirstName", VStr first); ("LastName", VStr last);
         ("Email", VStr address); ("Position", VStr position)].

(** A line that stops after the last name. *)
Definition short_row : value :=
  VDict [("FirstName", VStr "Eve"); ("LastName", VStr "Roe");
         ("Email", VNone); ("Position", VNone)].

Definition sheet : list value :=
  [row " Ann" "Doe " "  Ann@Example.COM " "CEO"; short_row; row "Bob" "Doe" "bob-at-example" "CTO"].

(** A service with the staff group and one profile, template and page,
    which stores any group posted to it. *)
Definition stocked : GoPhishSetup :=
  {| get_smtp_profiles := Ok (VList [VDict [("id", VInt 1); ("name", VStr "Mailgun")]]);
     get_templates := Ok (VList [VDict [("id", VInt 2); ("name", VStr "Invoice")]]);
     get_pages := Ok (VList [VDict [("id", VInt 3); ("name", VStr "Login")]]);
     get_groups := Ok (VList [visitors; VDict staff]);
     create_group := fun group => Ok group |}.

(** A transport that fails on every second attempt. *)
Definition lossy : transport :=
  fun n _ => if Nat.even n then Ok tt else Raise RequestFailed.

Definition found_ann : AffectedUser :=
  {| first_name := VStr "Ann"; last_name := VStr "Doe"; email := VStr "ann@example.com";
     event_time := VStr "2024-05-01T10:00:00Z"; event_type := VStr "Clicked Link" |}.

Definition found_bob : AffectedUser :=
  {| first_name := VStr "Bob"; last_name := VStr "Doe"; email := VStr "bob@example.com";
     event_time := VStr "2024-05-01T10:05:00Z"; event_type := VStr "Submitted Data" |}.

End Samples.

(** ** Properties *)

Section Properties.

Variable api : GoPhishAPIClient.
Variable isoformat : Z -> string.

Ltac run := unfold bind, lift, ret, log, now, try_except in *; cbn [fst snd] in *.

(** *** Runs compose *)

Section Composition.

Context {R : world -> world -> Prop} `{Frame R}.

Lemma keeps_ret {A} (a : A) : keeps R (ret a).
Proof. intro w. apply frame_refl. Qed.

Lemma keeps_lift {A} (r : outcome A) : keeps R (lift r).
Proof. intro w. apply frame_refl. Qed.

Lemma keeps_now : keeps R now.
Proof. intro w. apply frame_refl. Qed.

Lemma keeps_bind {A B} (m : M A) (k : A -> M B) :
  keeps R m -> (forall a, keeps R (k a)) -> keeps R (bind m k).
Proof.
  intros Hm Hk w. unfold bind.
  specialize (Hm w). destruct (m w) as [[a | e] w1]; cbn [snd] in *.
  - eapply frame_trans; [ exact Hm | apply Hk ].
  - exact Hm.
Qed.

Lemma keeps_try {A} (m : M A) (handler : exn -> M A) :
  keeps R m -> (forall e, keeps R (handler e)) -> keeps R (try_except m handler).
Proof.
  intros Hm Hh w. unfold try_except.
  specialize (Hm w). destruct (m w) as [[a | e] w1]; cbn [snd] in *.
  - exact Hm.
  - eapply frame_trans; [ exact Hm | apply Hh ].
Qed.

End Composition.

#[local] Instance at_rest_frame : Frame at_rest.
Proof.
  split.
  - intro w. split; reflexivity.
  - intros a b c [H1 H2] [H3 H4]. split; congruence.
Qed.

#[local] Instance appends_frame (P : io -> Prop) : Frame (appends P).
Proof.
  split.
  - intro w. exists []. split; [ symmetry; apply app_nil_r | constructor ].
  - intros a b c [l1 [E1 F1]] [l2 [E2 F2]].
    exists (l1 ++ l2)%list. split.
    + rewrite E2, E1. symmetry. apply app_assoc.
    + apply Forall_app. split; assumption.
Qed.

Lemma log_at_rest (message : string) : keeps at_rest (log message).
Proof. intro w. split; reflexivity. Qed.

Lemma log_appends (P : io -> Prop) (message : string) :
  P (Log message) -> keeps (appends P) (log message).
Proof.
  intros HP w. exists [(clock w, Log message)].
  split; [ reflexivity | repeat constructor; exact HP ].
Qed.

Lemma sleep_appends (P : io -> Prop) (duration : Z) :
  P (Sleep duration) -> keeps (appends P) (sleep duration).
Proof.
  intros HP w. exists [(clock w, Sleep duration)].
  split; [ reflexivity | repeat constructor; exact HP ].
Qed.

Lemma request_appends (P : io -> Prop) (ep : endpoint) (campaign_id : value) :
  P (Request ep campaign_id) -> keeps (appends P) (request api ep campaign_id).
Proof.
  intros HP w. exists [(clock w, Request ep campaign_id)].
  split; [ reflexivity | repeat constructor; exact HP ].
Qed.

Lemma since_appended (w w' : world) (l : list (Z * io)) :
  trace w' = (trace w ++ l)%list -> since w w' = map snd l.
Proof.
  intro E. unfold since. rewrite E.
  rewrite skipn_app, skipn_all, Nat.sub_diag. reflexivity.
Qed.

(** Splits a goal [keeps R m] along the structure of [m]. *)
Ltac frame :=
  repeat first
    [ apply keeps_ret | apply keeps_lift | apply keeps_now
    | apply log_at_rest
    | apply log_appends | apply sleep_appends | apply request_appends
    | apply keeps_bind; [ | intros ? ]
    | apply keeps_try; [ | intros ? ]
    | match goal with
      | |- keeps _ (if ?b then _ else _) => destruct b
      | |- keeps _ (match ?x with _ => _ end) => destruct x
      end ].

(** C1. Whatever the campaign argument and whatever the service replies,
    [extract_campaign_results] returns a list and does not raise: it returns
    what the [try] block computed, and the empty list when anything inside
    the block raised. *)
Theorem extract_campaign_results_total (campaign : value) (w : world) :
  exists affected_users w',
    extract_campaign_results api isoformat campaign w = (Ok affected_users, w') /\
    match fst (extract_body api isoformat campaign w) with
    | Ok found => affected_users = found
    | Raise _ => affected_users = []
    end.
Proof.
  unfold extract_campaign_results, try_except.
  destruct (extract_body api isoformat campaign w) as [[found | e] w1] eqn:Hbody.
  - exists found, w1. split; reflexivity.
  - run. eexists [], _. split; reflexivity.
Qed.


(** C6. With an empty timeline, no per-target results, statistics
    [clicked = 2] and [submitted_data = 1] and a first group of three
    targets that each have an email, exactly two users come out: the first
    target as "Submitted Data" and the second as "Clicked Link".  The groups
    after the first, whatever they are, are not looked at. *)
Theorem stats_reconstruction_first_group
    (campaign campaign_id : value) (summary stats details group : list (string * value))
    (t0 t1 t2 : list (string * value)) (e0 e1 e2 : value)
    (more_groups : list value) (w : world) :
  getitem campaign "id" = Ok campaign_id ->
  (forall n, answer (get_campaign_summary api n campaign_id) = Ok (VDict summary)) ->
  (forall n, answer (get_campaign api n campaign_id) = Ok (VDict details)) ->
  item_or summary "timeline" (VList []) = VList [] ->
  item_or details "results" (VList []) = VList [] ->
  lookup "stats" summary = Some (VDict stats) ->
  lookup "clicked" stats = Some (VInt 2) ->
  lookup "submitted_data" stats = Some (VInt 1) ->
  lookup "groups" details = Some (VList (VDict group :: more_groups)) ->
  lookup "targets" group = Some (VList [VDict t0; VDict t1; VDict t2]) ->
  lookup "email" t0 = Some e0 -> truthy e0 = true ->
  lookup "email" t1 = Some e1 -> truthy e1 = true ->
  lookup "email" t2 = Some e2 -> truthy e2 = true ->
  let run := extract_campaign_results api isoformat campaign w in
  let made := VStr (isoformat (clock (snd run))) in
  fst run =
    Ok [ {| first_name := item_or t0 "first_name" (VStr "");
            last_name := item_or t0 "last_name" (VStr "");
            email := e0;
            event_time := made;
            event_type := VStr "Submitted Data" |};
         {| first_name := item_or t1 "first_name" (VStr "");
            last_name := item_or t1 "last_name" (VStr "");
            email := e1;
            event_time := made;
            event_type := VStr "Clicked Link" |} ].
Proof.
  intros Hid Hsummary Hdetails Htimeline Hresults Hstats Hclicked Hsubmitted
         Hgroups Htargets He0 Ht0 He1 Ht1 He2 Ht2.
  assert (I0 : item_or t0 "email" (VStr "") = e0) by (unfold item_or; rewrite He0; reflexivity).
  assert (I1 : item_or t1 "email" (VStr "") = e1) by (unfold item_or; rewrite He1; reflexivity).
  assert (Is : item_or summary "stats" (VDict []) = VDict stats)
    by (unfold item_or; rewrite Hstats; reflexivity).
  assert (Ic : item_or stats "clicked" (VInt 0) = VInt 2)
    by (unfold item_or; rewrite Hclicked; reflexivity).
  assert (Iu : item_or stats "submitted_data" (VInt 0) = VInt 1)
    by (unfold item_or; rewrite Hsubmitted; reflexivity).
  assert (Ig : item_or details "groups" (VList []) = VList (VDict group :: more_groups))
    by (unfold item_or; rewrite Hgroups; reflexivity).
  assert (It : item_or group "targets" (VList []) = VList [VDict t0; VDict t1; VDict t2])
    by (unfold item_or; rewrite Htargets; reflexivity).
  unfold extract_campaign_results, extract_body, method2, method3, request.
  run. rewrite Hid. cbn. rewrite Hsummary. cbn. rewrite Htimeline. cbn.
  rewrite Hdetails. cbn. rewrite Hresults. cbn.
  rewrite Is. cbn. rewrite Ic, Iu. cbn.
  rewrite Hdetails. cbn. rewrite Ig. cbn. rewrite It. cbn.
  rewrite I0, I1, Ht0, Ht1. cbn.
  reflexivity.
Qed.

(** C7. Once the timeline has been fetched and scanned, method 2 runs (its
    opening line is logged) exactly when the scan found nobody and the
    timeline has length zero.  A timeline that is not empty but matched
    nothing goes straight to method 3 and its test of the statistics. *)
Theorem method2_runs_iff_timeline_empty
    (campaign campaign_id results timeline : value) (size : Z)
    (events : list value) (affected_users : list AffectedUser)
    (processed_emails : pyset) (w : world) :
  getitem campaign "id" = Ok campaign_id ->
  answer (get_campaign_summary api (requests w) campaign_id) = Ok results ->
  get results "timeline" (VList []) = Ok timeline ->
  len timeline = Ok size ->
  iter timeline = Ok events ->
  scan_timeline events ([], []) = Ok (affected_users, processed_emails) ->
  let w1 := emit (Log "Processing timeline events from campaign")
                 (snd (request api Summary campaign_id w)) in
  (In (Log "Timeline is empty, trying alternative extraction method...")
      (since w (snd (extract_campaign_results api isoformat campaign w)))
   <-> affected_users = [] /\ size = 0) /\
  (affected_users = [] -> size <> 0 ->
   extract_body api isoformat campaign w =
     (found <- method3 api isoformat campaign results [];;
      log "Extracted affected users from campaign results";;
      ret found) w1).
Proof.
  intros Hid Hsummary Htimeline Hsize Hiter Hscan w1.
  set (marker := Log "Timeline is empty, trying alternative extraction method...").
  set (tail := fun st : scan_state =>
         affected <- (if no_users (fst st)
                      then method3 api isoformat campaign results (fst st)
                      else ret (fst st));;
         log "Extracted affected users from campaign results";;
         ret affected).
  set (rest := st <- (if no_users affected_users && (size =? 0)
                      then method2 api campaign (affected_users, processed_emails)
                      else ret (affected_users, processed_emails));;
               tail st).
  assert (Hbody : extract_body api isoformat campaign w = rest w1).
  { unfold extract_body, rest, tail, w1, request. run.
    rewrite Hid. cbn. rewrite Hsummary. cbn. rewrite Htimeline. cbn.
    rewrite Hsize. cbn. rewrite Hiter. cbn. rewrite Hscan. cbn.
    reflexivity. }
  assert (Hw1 : trace w1 = (trace w ++ [(clock w, Request Summary campaign_id);
                                        (clock w1, Log "Processing timeline events from campaign")])%list).
  { unfold w1, request, emit. cbn. rewrite <- app_assoc. reflexivity. }
  set (handler := fun _ : exn =>
         log "Error extracting campaign results";; @ret (list AffectedUser) []).
  assert (Hrun : extract_campaign_results api isoformat campaign w =
                 try_except rest handler w1).
  { unfold extract_campaign_results, try_except. rewrite Hbody. reflexivity. }
  split.
  - rewrite Hrun.
    destruct (no_users affected_users && (size =? 0)) eqn:Hcond.
    + (* method 2 runs *)
      apply andb_prop in Hcond. destruct Hcond as [Hnone Hzero].
      assert (Hnil : affected_users = []) by (destruct affected_users; [ reflexivity | discriminate ]).
      apply Z.eqb_eq in Hzero.
      split; [ intros _; split; assumption | intros _ ].
      set (w2 := emit marker w1).
      assert (Hstep : exists m : M (list AffectedUser),
                 keeps (appends (fun _ => True)) m /\
                 try_except rest handler w1 = m w2).
      { exists (try_except
                  (st <- (campaign_id <- lift (getitem campaign "id");;
                          campaign_details <- request api Campaign campaign_id;;
                          campaign_results <- lift (get campaign_details "results" (VList []));;
                          _ <- lift (len campaign_results);;
                          log "Found campaign results";;
                          results <- lift (iter campaign_results);;
                          lift (scan_results results (affected_users, processed_emails)));;
                   tail st)
                  handler).
        split.
        - unfold tail, handler. frame; auto.
        - unfold rest, try_except, bind at 1. unfold method2.
          reflexivity. }
      destruct Hstep as [m [Hm Heq]]. rewrite Heq.
      destruct (Hm w2) as [l [El _]].
      assert (Hall : trace (snd (m w2)) =
                     (trace w ++ ([(clock w, Request Summary campaign_id);
                                   (clock w1, Log "Processing timeline events from campaign");
                                   (clock w1, marker)] ++ l))%list).
      { rewrite El. unfold w2, emit. cbn [trace]. rewrite Hw1.
        repeat rewrite <- app_assoc. reflexivity. }
      rewrite (since_appended _ _ _ Hall). cbn. right. right. left. reflexivity.
    + (* method 2 does not run *)
      split; [ | intros [Hnil Hzero]; subst; discriminate Hcond ].
      intro Hin. exfalso.
      assert (Hm : keeps (appends (fun e => e <> marker)) (try_except rest handler)).
      { unfold rest, tail, handler. frame;
          try (unfold marker; discriminate). }
      destruct (Hm w1) as [l [El Fl]].
      assert (Hall : trace (snd (try_except rest handler w1)) =
                     (trace w ++ ([(clock w, Request Summary campaign_id);
                                   (clock w1, Log "Processing timeline events from campaign")] ++ l))%list).
      { rewrite El, Hw1. rewrite <- app_assoc. reflexivity. }
      rewrite (since_appended _ _ _ Hall) in Hin. cbn in Hin.
      destruct Hin as [Hin | [Hin | Hin]]; try discriminate Hin.
      apply in_map_iff in Hin. destruct Hin as [[t e] [He Hin]]. cbn in He. subst e.
      rewrite Forall_forall in Fl. apply (Fl _ Hin). reflexivity.
  - intros Hnil Hnonzero. rewrite Hbody. unfold rest, tail.
    subst affected_users. apply Z.eqb_neq in Hnonzero. rewrite Hnonzero.
    cbn. reflexivity.
Qed.

(** C9. When the first fetch shows a status of "Completed" or "Finished",
    the monitor returns that very snapshot from its first pass: the trace
    holds the two requests and the log lines, no sleep, and the statistics
    are read for the log only (no condition is put on their values). *)
Theorem completed_campaign_returns_on_first_poll
    (campaign_id campaign summary status : value) (stats : list (string * value))
    (timeout : Z) (w : world) :
  0 < timeout ->
  answer (get_campaign api (requests w) campaign_id) = Ok campaign ->
  answer (get_campaign_summary api (S (requests w)) campaign_id) = Ok summary ->
  get campaign "status" (VStr "Unknown") = Ok status ->
  in_strs status ["Completed"; "Finished"] = true ->
  get summary "stats" (VDict []) = Ok (VDict stats) ->
  let r := wait_for_campaign_completion api campaign_id timeout w in
  fst r = Ok (Some campaign) /\
  since w (snd r) =
    [ Log "Monitoring campaign for completion";
      Request Campaign campaign_id;
      Request Summary campaign_id;
      Log "Campaign status";
      Log "Campaign stats";
      Log "Campaign completed successfully" ] /\
  requests (snd r) = S (S (requests w)).
Proof.
  intros Hpositive Hcampaign Hsummary Hstatus Hdone Hstats r.
  assert (Hr : exists w', r = (Ok (Some campaign), w') /\
             requests w' = S (S (requests w)) /\
             trace w' = (trace w ++
               [ (clock w, Log "Monitoring campaign for completion");
                 (clock w, Request Campaign campaign_id);
                 (clock (snd (request api Campaign campaign_id w)), Request Summary campaign_id);
                 (clock w', Log "Campaign status");
                 (clock w', Log "Campaign stats");
                 (clock w', Log "Campaign completed successfully") ])%list).
  { unfold r, wait_for_campaign_completion, passes. cbn [monitor].
    unfold poll, check_campaign, request, sleep. run. unfold emit.
    cbn [requests clock trace].
    replace (clock w <? clock w + timeout) with true by (symmetry; apply Z.ltb_lt; lia).
    cbn [requests clock trace].
    rewrite Hcampaign. cbn -[in_strs]. rewrite Hsummary. cbn -[in_strs].
    rewrite Hstatus. cbn -[in_strs]. rewrite Hstats. cbn -[in_strs]. rewrite Hdone. cbn.
    eexists. split; [ reflexivity | ]. cbn. split; [ reflexivity | ].
    repeat rewrite <- app_assoc. reflexivity. }
  destruct Hr as [w' [Er [Hrequests Htrace]]]. rewrite Er. cbn [fst snd].
  split; [ reflexivity | ]. split; [ | exact Hrequests ].
  rewrite (since_appended _ _ _ Htrace). reflexivity.
Qed.

(** *** What a run returns *)











(** *** The clock along a pass *)

#[local] Instance not_before_frame : Frame not_before.
Proof.
  split; unfold not_before.
  - intro w. lia.
  - intros a b c. lia.
Qed.

Lemma log_not_before (message : string) : keeps not_before (log message).
Proof. intro w. unfold not_before. cbn. lia. Qed.

Lemma request_not_before (ep : endpoint) (campaign_id : value) :
  keeps not_before (request api ep campaign_id).
Proof. intro w. unfold not_before, request. cbn. lia. Qed.

Lemma check_campaign_not_before (campaign_id : value) (start_time : Z) (last : option Z) :
  keeps not_before (check_campaign api campaign_id start_time last).
Proof.
  unfold check_campaign.
  repeat first [ apply log_not_before | apply request_not_before | progress frame ].
Qed.

Lemma check_interval_positive : 0 < check_interval.
Proof. reflexivity. Qed.

(** A pass in terms of what its checks gave. *)
Lemma poll_eq (campaign_id : value) (start_time : Z) (last : option Z) (w : world) :
  poll api campaign_id start_time last w =
    match check_campaign api campaign_id start_time last w with
    | (Ok (Done campaign), w1) => (Ok (Done campaign), w1)
    | (Ok (Again next), w1) => (Ok (Again next), snd (sleep check_interval w1))
    | (Raise _, w1) =>
        (Ok (Again last),
         snd (sleep check_interval (emit (Log "Error checking campaign status") w1)))
    end.
Proof.
  unfold poll, try_except, bind.
  destruct (check_campaign api campaign_id start_time last w) as [[[campaign | next] | e] w1];
    reflexivity.
Qed.

(** A pass never raises. *)
Lemma poll_never_raises (campaign_id : value) (start_time : Z) (last : option Z) (w : world) :
  exists v, fst (poll api campaign_id start_time last w) = Ok v.
Proof.
  rewrite poll_eq.
  destruct (check_campaign api campaign_id start_time last w) as [[[campaign | next] | e] w1];
    eexists; reflexivity.
Qed.

(** A pass that goes round again has slept for the whole interval. *)
Lemma poll_again_clock (campaign_id : value) (start_time : Z) (last next : option Z)
    (w : world) :
  fst (poll api campaign_id start_time last w) = Ok (Again next) ->
  clock w + check_interval <= clock (snd (poll api campaign_id start_time last w)).
Proof.
  rewrite poll_eq.
  assert (Hclock := check_campaign_not_before campaign_id start_time last w).
  unfold not_before in Hclock.
  destruct (check_campaign api campaign_id start_time last w) as [[[campaign | after] | e] w1];
    cbn [fst snd clock sleep emit] in *; intro Hv; [ discriminate Hv | lia | lia ].
Qed.


(** *** The loop *)

Lemma monitor_eq (fuel : nat) (campaign_id : value) (start_time timeout_time : Z)
    (last : option Z) (w : world) :
  monitor api fuel campaign_id start_time timeout_time last w =
    if clock w <? timeout_time then
      match fuel with
      | O => (Ok None, w)
      | S fuel' =>
          match poll api campaign_id start_time last w with
          | (Ok (Done campaign), w1) => (Ok (Some campaign), w1)
          | (Ok (Again next), w1) =>
              monitor api fuel' campaign_id start_time timeout_time next w1
          | (Raise e, w1) => (Raise e, w1)
          end
      end
    else last_fetch api campaign_id w.
Proof.
  destruct fuel; cbn [monitor]; unfold bind at 1, now; cbn [clock fst snd];
    destruct (clock w <? timeout_time); try reflexivity.
  unfold bind at 1.
  destruct (poll api campaign_id start_time last w) as [[[campaign | next] | e] w1];
    reflexivity.
Qed.

Lemma last_fetch_eq (campaign_id : value) (w : world) :
  fst (last_fetch api campaign_id w) =
    match answer (get_campaign api (requests w) campaign_id) with
    | Ok campaign => Ok (Some campaign)
    | Raise e => Raise e
    end.
Proof.
  unfold last_fetch, request. run. unfold emit. cbn [requests clock trace].
  destruct (answer _); reflexivity.
Qed.

Lemma wait_eq (campaign_id : value) (timeout : Z) (w : world) :
  wait_for_campaign_completion api campaign_id timeout w =
    monitor api (passes timeout) campaign_id (clock w) (clock w + timeout) None
            (emit (Log "Monitoring campaign for completion") w).
Proof. reflexivity. Qed.

Lemma passes_suffice (timeout : Z) :
  timeout <= Z.of_nat (passes timeout) * check_interval.
Proof.
  unfold passes. assert (H := check_interval_positive).
  destruct (Z.le_gt_cases 0 timeout) as [Hpos | Hneg].
  - rewrite Nat2Z.inj_succ, Z2Nat.id by (apply Z.div_pos; lia).
    assert (Hmod := Z.mod_pos_bound timeout check_interval H).
    assert (Hdiv := Z.div_mod timeout check_interval ltac:(lia)).
    nia.
  - nia.
Qed.





(** *** How far the clock moves in a pass *)

Lemma within_bind {A B} (d1 d2 : Z) (m : M A) (k : A -> M B) :
  0 <= d2 ->
  keeps (within d1) m -> (forall a, keeps (within d2) (k a)) ->
  keeps (within (d1 + d2)) (bind m k).
Proof.
  intros Hd Hm Hk w. unfold bind. specialize (Hm w). unfold within in *.
  destruct (m w) as [[a | e] w1]; cbn [snd] in *.
  - specialize (Hk a w1). unfold within in Hk. lia.
  - lia.
Qed.

Lemma at_rest_within {A} (m : M A) : keeps at_rest m -> keeps (within 0) m.
Proof.
  intros Hm w. destruct (Hm w) as [Hclock _]. unfold within. lia.
Qed.

Lemma request_within (limit : Z) (ep : endpoint) (campaign_id : value) :
  responsive api limit -> keeps (within limit) (request api ep campaign_id).
Proof.
  intros Hlimit w. unfold within, request. cbn [snd clock emit].
  destruct (Hlimit (requests w) campaign_id) as [Hc Hs].
  destruct ep; lia.
Qed.

Lemma responsive_nonneg (limit : Z) : responsive api limit -> 0 <= limit.
Proof.
  intro Hlimit. destruct (Hlimit O VNone) as [Hc _]. lia.
Qed.

Lemma check_campaign_within (limit : Z) (campaign_id : value) (start_time : Z)
    (last : option Z) :
  responsive api limit ->
  keeps (within (limit + (limit + 0))) (check_campaign api campaign_id start_time last).
Proof.
  intro Hlimit. assert (Hsign := responsive_nonneg limit Hlimit).
  unfold check_campaign.
  apply within_bind; [ lia | apply request_within; exact Hlimit | intro campaign ].
  apply within_bind; [ lia | apply request_within; exact Hlimit | intro summary ].
  apply at_rest_within. frame.
Qed.

Lemma poll_within (limit : Z) (campaign_id : value) (start_time : Z)
    (last : option Z) (w : world) :
  responsive api limit ->
  clock (snd (poll api campaign_id start_time last w))
    <= clock w + check_interval + 2 * limit.
Proof.
  intro Hlimit. rewrite poll_eq.
  assert (Hclock := check_campaign_within limit campaign_id start_time last Hlimit w).
  unfold within in Hclock. assert (Hpos := check_interval_positive).
  destruct (check_campaign api campaign_id start_time last w) as [[[campaign | next] | e] w1];
    cbn [fst snd clock sleep emit] in *; lia.
Qed.

(** A service on which no pass ever stops has no stop in any call. *)
Lemma never_stops_in_no_call (campaign_id : value) (timeout : Z) (w : world) :
  never_stops api campaign_id -> no_stop_in_call api campaign_id timeout w.
Proof.
  intros Hnever seen w1 campaign _ _. apply Hnever.
Qed.

(** The loop either meets a pass that stops, entered at one of its checks
    before the deadline, and returns the campaign of that pass; or it is
    left at the first check at or after the deadline, less than an interval
    and a pass's requests past it, for the last fetch. *)
Lemma monitor_stops_or_times_out
    (limit : Z) (campaign_id : value) (start_time timeout_time : Z) :
  responsive api limit ->
  forall (fuel : nat) (last : option Z) (w : world),
    timeout_time - clock w <= Z.of_nat fuel * check_interval ->
    clock w < timeout_time + check_interval + 2 * limit ->
    (exists seen w1 campaign,
       loops_to api campaign_id start_time timeout_time last w seen w1 /\
       clock w1 < timeout_time /\
       poll api campaign_id start_time seen w1 =
         (Ok (Done campaign), snd (poll api campaign_id start_time seen w1)) /\
       monitor api fuel campaign_id start_time timeout_time last w =
         (Ok (Some campaign), snd (poll api campaign_id start_time seen w1))) \/
    (exists seen w_exit,
       loops_to api campaign_id start_time timeout_time last w seen w_exit /\
       timeout_time <= clock w_exit < timeout_time + check_interval + 2 * limit /\
       monitor api fuel campaign_id start_time timeout_time last w =
         last_fetch api campaign_id w_exit).
Proof.
  intro Hlimit.
  induction fuel as [ | fuel IH]; intros last w Hfuel Hentry; rewrite monitor_eq.
  - replace (clock w <? timeout_time) with false by (symmetry; apply Z.ltb_ge; lia).
    right. exists last, w. split; [ apply loops_here | ]. split; [ lia | reflexivity ].
  - destruct (clock w <? timeout_time) eqn:Hbefore.
    + apply Z.ltb_lt in Hbefore.
      assert (Hlow := poll_again_clock campaign_id start_time last).
      assert (Hhigh := poll_within limit campaign_id start_time last w Hlimit).
      destruct (poll_never_raises campaign_id start_time last w) as [v Hv].
      destruct (poll api campaign_id start_time last w) as [[[campaign | next] | e] w1] eqn:Hpoll;
        cbn [fst snd] in *.
      * left. exists last, w, campaign. rewrite Hpoll. cbn [snd].
        split; [ apply loops_here | ]. split; [ exact Hbefore | ]. split; reflexivity.
      * specialize (Hlow next w). rewrite Hpoll in Hlow. specialize (Hlow eq_refl).
        cbn [snd] in Hlow.
        destruct (IH next w1) as [[seen [w2 [campaign [Hloop Hrest]]]]
                                 | [seen [w_exit [Hloop Hrest]]]]; [ lia | lia | | ].
        -- left. exists seen, w2, campaign. split; [ | exact Hrest ].
           apply loops_round with (next := next) (w1 := w1); assumption.
        -- right. exists seen, w_exit. split; [ | exact Hrest ].
           apply loops_round with (next := next) (w1 := w1); assumption.
      * discriminate Hv.
    + apply Z.ltb_ge in Hbefore.
      right. exists last, w. split; [ apply loops_here | ]. split; [ lia | reflexivity ].
Qed.

(** C4 (as the code has it). When no stop condition fires during the call,
    every request is answered within [limit] and the timeout is positive,
    the monitor leaves its loop at the first of its loop checks at or after
    the deadline: not before it, and less than one check interval plus the
    two requests of a pass after it.  It then fetches the campaign once
    more and, that fetch succeeding, returns its snapshot. *)
Theorem timeout_returns_last_snapshot
    (campaign_id : value) (timeout limit : Z) (w : world) :
  no_stop_in_call api campaign_id timeout w ->
  responsive api limit ->
  0 < timeout ->
  let deadline := clock w + timeout in
  let r := wait_for_campaign_completion api campaign_id timeout w in
  exists seen w_exit,
    checks_of_call api campaign_id timeout w seen w_exit /\
    deadline <= clock w_exit < deadline + check_interval + 2 * limit /\
    snd r = snd (last_fetch api campaign_id w_exit) /\
    forall campaign,
      answer (get_campaign api (requests w_exit) campaign_id) = Ok campaign ->
      fst r = Ok (Some campaign).
Proof.
  intros Hnone Hlimit Hpositive deadline r.
  assert (Hsign := responsive_nonneg limit Hlimit).
  assert (Hpos := check_interval_positive).
  assert (Hfuel := passes_suffice timeout).
  set (w0 := emit (Log "Monitoring campaign for completion") w).
  destruct (monitor_stops_or_times_out limit campaign_id (clock w) deadline Hlimit
              (passes timeout) None w0)
    as [[seen [w1 [campaign [Hloop [Hbefore [Hstop _]]]]]]
       | [seen [w_exit [Hloop [Hexit Hrun]]]]].
  - unfold w0, deadline. cbn [clock emit]. lia.
  - unfold w0, deadline. cbn [clock emit]. lia.
  - exfalso. apply (Hnone seen w1 campaign Hloop Hbefore). rewrite Hstop. reflexivity.
  - exists seen, w_exit. split; [ exact Hloop | ]. split; [ exact Hexit | ].
    unfold r. rewrite wait_eq. fold w0. fold deadline. rewrite Hrun.
    split; [ reflexivity | ].
    intros campaign Hanswer. rewrite last_fetch_eq, Hanswer. reflexivity.
Qed.

(** *** The emails that come out *)

(** Opens the next step of a loop body written with [let?] and [if]. *)
Ltac step :=
  match goal with
  | |- rbind ?r _ = Ok _ -> _ => destruct r eqn:?; cbn [rbind]; [ | discriminate ]
  | |- (if ?b then _ else _) = Ok _ -> _ => destruct b eqn:?
  end.











(** *** The de-duplication key *)

Lemma append_inv_head (s a b : string) : (s ++ a = s ++ b)%string -> a = b.
Proof.
  induction s as [ | c s IH]; cbn; intro H; [ exact H | ].
  injection H as H. exact (IH H).
Qed.

Lemma length_append (a b : string) :
  String.length (a ++ b) = (String.length a + String.length b)%nat.
Proof.
  induction a as [ | c a IH]; cbn; [ reflexivity | rewrite IH; reflexivity ].
Qed.

Lemma append_inv_tail (t : string) :
  forall a b : string, (a ++ t = b ++ t)%string -> a = b.
Proof.
  induction a as [ | c a IH]; destruct b as [ | c' b]; cbn; intro H.
  - reflexivity.
  - apply (f_equal String.length) in H. cbn in H. rewrite length_append in H. lia.
  - apply (f_equal String.length) in H. cbn in H. rewrite length_append in H. lia.
  - injection H as Hc H. rewrite Hc, (IH b H). reflexivity.
Qed.

(** For one and the same email the key tells the messages apart. *)
Lemma event_key_same_email (address : value) (m1 m2 : string) :
  event_key address m1 = event_key address m2 -> m1 = m2.
Proof.
  unfold event_key. intro H.
  apply append_inv_head in H. apply append_inv_head in H. exact H.
Qed.

(** For one and the same message the key tells the addresses apart. *)
Lemma event_key_same_message (a1 a2 message : string) :
  event_key (VStr a1) message = event_key (VStr a2) message -> a1 = a2.
Proof.
  unfold event_key. cbn [format]. apply append_inv_tail.
Qed.

Lemma message_as_found (d : list (string * value)) (raw message : string) :
  item_or d "message" (VStr "") = VStr raw ->
  lower_string raw = message ->
  item_or d "message" (VStr message) = VStr raw \/ (raw = "" /\ message = "").
Proof.
  unfold item_or. destruct (lookup "message" d) as [found | ].
  - intros Hraw _. left. exact Hraw.
  - intros [= <-] <-. right. split; reflexivity.
Qed.

(** Method 1 never files two users under one key: an email comes out at
    most once for a given lower-cased message. *)
Lemma scan_event_filed (event : value) (st st' : scan_state) :
  scan_event event st = Ok st' -> filed st -> filed st'.
Proof.
  destruct st as [affected_users processed_emails]. unfold scan_event.
  destruct event as [ | | | | | d]; cbn [get rbind]; try (intro H; discriminate H).
  destruct (item_or d "message" (VStr "")) as [ | | | text | | ] eqn:Hraw;
    cbn [lower rbind]; try (intro H; discriminate H).
  destruct (is_click_event (lower_string text)) eqn:Hclick; [ | intros [= <-]; auto ].
  unfold resolve_email.
  destruct (item_or d "details" (VDict [])) as [ | | | | | details];
    cbn [get rbind]; try (intro H; discriminate H).
  set (address := item_or d "email" (item_or details "email" (VStr ""))).
  set (key := VStr (event_key address (lower_string text))).
  unfold set_mem, set_add. cbn [hashable rbind].
  destruct (existsb (key_eqb key) processed_emails) eqn:Hseen; [ intros [= <-]; auto | ].
  assert (Hfound : item_or d "message" (VStr (lower_string text)) = VStr text).
  { destruct (message_as_found d text _ Hraw eq_refl) as [Hfound | [-> _]]; [ exact Hfound | ].
    discriminate Hclick. }
  rewrite Hfound.
  intros Hst' [Hin Hnodup]. cbn [fst snd] in *.
  assert (Hkeep : forall u, In u affected_users ->
            existsb (key_eqb (user_key u)) (key :: processed_emails) = true).
  { intros u Hu. cbn [existsb]. rewrite (Hin u Hu). apply orb_true_r. }
  destruct (truthy address); injection Hst' as <-; cbn [fst snd];
    [ | split; assumption ].
  unfold filed. cbn [fst snd]. split.
  - intros v Hv. apply in_app_or in Hv. destruct Hv as [Hv | [<- | []]].
    + apply Hkeep. exact Hv.
    + unfold user_key. cbn [event_type email]. fold key.
      unfold key. cbn [existsb key_eqb]. rewrite String.eqb_refl. reflexivity.
  - rewrite map_app. cbn [map]. unfold user_key at 2. cbn [event_type email]. fold key.
    apply NoDup_app; [ exact Hnodup | repeat constructor; intros [] | ].
    intros k Hk [<- | []].
    apply in_map_iff in Hk. destruct Hk as [v [Hvk Hv]].
    specialize (Hin v Hv). rewrite Hvk, Hseen in Hin. discriminate Hin.
Qed.

Lemma scan_timeline_filed (timeline : list value) :
  forall st st', scan_timeline timeline st = Ok st' -> filed st -> filed st'.
Proof.
  induction timeline as [ | event rest IH]; intros st st'; cbn [scan_timeline].
  - intros [= <-] Hst. exact Hst.
  - destruct (scan_event event st) as [st1 | ] eqn:Hevent; cbn [rbind]; [ | discriminate ].
    intros Hrest Hst. apply (IH _ _ Hrest). exact (scan_event_filed _ _ _ Hevent Hst).
Qed.

(** No two users found by method 1 have the same key. *)
Lemma scan_timeline_keys_unique (timeline : list value) (st : scan_state) :
  scan_timeline timeline ([], []) = Ok st -> NoDup (map user_key (fst st)).
Proof.
  intro Hscan. apply (scan_timeline_filed _ _ _ Hscan).
  split; [ intros u [] | constructor ].
Qed.

(** *** The requests of an extraction *)

(** X1. When the timeline scan finds somebody, the extraction asks the
    service once, for the summary, and never for the campaign: the trace
    holds that request and the two log lines, and the users of the scan are
    returned. *)
Theorem timeline_hit_asks_once
    (campaign campaign_id results timeline : value) (size : Z)
    (events : list value) (affected_users : list AffectedUser)
    (processed_emails : pyset) (w : world) :
  getitem campaign "id" = Ok campaign_id ->
  answer (get_campaign_summary api (requests w) campaign_id) = Ok results ->
  get results "timeline" (VList []) = Ok timeline ->
  len timeline = Ok size ->
  iter timeline = Ok events ->
  scan_timeline events ([], []) = Ok (affected_users, processed_emails) ->
  affected_users <> [] ->
  let r := extract_campaign_results api isoformat campaign w in
  fst r = Ok affected_users /\
  requests (snd r) = S (requests w) /\
  since w (snd r) =
    [ Request Summary campaign_id;
      Log "Processing timeline events from campaign";
      Log "Extracted affected users from campaign results" ].
Proof.
  intros Hid Hsummary Htimeline Hsize Hiter Hscan Hsome r.
  destruct affected_users as [ | u users]; [ contradiction | ].
  assert (Hr : exists w', r = (Ok (u :: users), w') /\
             requests w' = S (requests w) /\
             trace w' = (trace w ++
               [ (clock w, Request Summary campaign_id);
                 (clock w', Log "Processing timeline events from campaign");
                 (clock w', Log "Extracted affected users from campaign results") ])%list).
  { unfold r, extract_campaign_results, extract_body, request. run. unfold emit.
    cbn [requests clock trace].
    rewrite Hid. cbn [requests clock trace]. rewrite Hsummary. cbn [requests clock trace].
    rewrite Htimeline, Hsize, Hiter, Hscan. cbn.
    eexists. split; [ reflexivity | ]. cbn. split; [ reflexivity | ].
    repeat rewrite <- app_assoc. reflexivity. }
  destruct Hr as [w' [-> [Hrequests Htrace]]]. cbn [fst snd].
  split; [ reflexivity | ]. split; [ exact Hrequests | ].
  rewrite (since_appended _ _ _ Htrace). reflexivity.
Qed.

#[local] Instance no_request_frame : Frame no_request.
Proof.
  split; unfold no_request.
  - reflexivity.
  - intros a b c H1 H2. congruence.
Qed.

Lemma log_no_request (message : string) : keeps no_request (log message).
Proof. intro w. reflexivity. Qed.

Lemma sleep_no_request (duration : Z) : keeps no_request (sleep duration).
Proof. intro w. reflexivity. Qed.

(** Shows that a computation without [request] makes none. *)
Ltac quiet :=
  repeat first [ apply log_no_request | apply sleep_no_request | progress frame ].

Lemma asks_bind {A B} (n1 n2 : nat) (m : M A) (k : A -> M B) :
  keeps (asks n1) m -> (forall a, keeps (asks n2) (k a)) ->
  keeps (asks (n1 + n2)) (bind m k).
Proof.
  intros Hm Hk w. unfold bind. specialize (Hm w). unfold asks in *.
  destruct (m w) as [[a | e] w1]; cbn [snd] in *.
  - specialize (Hk a w1). unfold asks in Hk. lia.
  - lia.
Qed.

Lemma asks_after_quiet {A B} (n : nat) (m : M A) (k : A -> M B) :
  keeps no_request m -> (forall a, keeps (asks n) (k a)) -> keeps (asks n) (bind m k).
Proof.
  intros Hm Hk w. unfold bind. specialize (Hm w). unfold asks, no_request in *.
  destruct (m w) as [[a | e] w1]; cbn [snd] in *.
  - specialize (Hk a w1). unfold asks in Hk. lia.
  - lia.
Qed.

Lemma quiet_asks {A} (n : nat) (m : M A) : keeps no_request m -> keeps (asks n) m.
Proof.
  intros Hm w. specialize (Hm w). unfold asks, no_request in *. lia.
Qed.

Lemma asks_more {A} (n n' : nat) (m : M A) :
  (n <= n')%nat -> keeps (asks n) m -> keeps (asks n') m.
Proof.
  intros Hle Hm w. specialize (Hm w). unfold asks in *. lia.
Qed.

Lemma asks_try {A} (n : nat) (m : M A) (handler : exn -> M A) :
  keeps (asks n) m -> (forall e, keeps no_request (handler e)) ->
  keeps (asks n) (try_except m handler).
Proof.
  intros Hm Hh w. unfold try_except. specialize (Hm w). unfold asks in *.
  destruct (m w) as [[a | e] w1]; cbn [snd] in *.
  - exact Hm.
  - specialize (Hh e w1). unfold no_request in Hh. lia.
Qed.

Lemma request_asks (ep : endpoint) (campaign_id : value) :
  keeps (asks 1) (request api ep campaign_id).
Proof. intro w. unfold asks, request. cbn. lia. Qed.

(** Walks through the steps that make no request. *)
Ltac skip_quiet :=
  repeat (apply asks_after_quiet; [ solve [ quiet ] | intros ? ]).

Lemma method2_asks (campaign : value) (st : scan_state) :
  keeps (asks 1) (method2 api campaign st).
Proof.
  unfold method2. skip_quiet.
  apply (asks_bind 1 0); [ apply request_asks | intros ? ].
  apply quiet_asks. quiet.
Qed.

Lemma method3_asks (campaign results : value) (affected_users : list AffectedUser) :
  keeps (asks 1) (method3 api isoformat campaign results affected_users).
Proof.
  unfold method3. skip_quiet.
  match goal with |- keeps _ (if ?b then _ else _) => destruct b end;
    [ | apply quiet_asks; quiet ].
  skip_quiet.
  apply (asks_bind 1 0); [ apply request_asks | intros ? ].
  apply quiet_asks. quiet.
Qed.

(** X2. Whatever the campaign and the service, one extraction makes at most
    three requests: the summary, and the campaign once for method 2 and
    once for method 3. *)
Theorem extraction_asks_at_most_thrice (campaign : value) (w : world) :
  (requests w <= requests (snd (extract_campaign_results api isoformat campaign w))
     <= requests w + 3)%nat.
Proof.
  assert (H : keeps (asks 3) (extract_campaign_results api isoformat campaign)).
  { unfold extract_campaign_results. apply asks_try; [ | intro e; quiet ].
    unfold extract_body. skip_quiet.
    apply (asks_bind 1 2); [ apply request_asks | intros ? ].
    skip_quiet.
    apply (asks_bind 1 1).
    { match goal with |- keeps _ (if ?b then _ else _) => destruct b end;
        [ apply method2_asks | apply quiet_asks; quiet ]. }
    intros ?.
    apply (asks_bind 1 0).
    { match goal with |- keeps _ (if ?b then _ else _) => destruct b end;
        [ apply method3_asks | apply quiet_asks; quiet ]. }
    intros ?. apply quiet_asks. quiet. }
  exact (H w).
Qed.

(** *** A timeline with an event that is no dict *)

Lemma scan_event_not_dict (event : value) (st : scan_state) :
  (forall d, event <> VDict d) -> scan_event event st = Raise AttributeError.
Proof.
  intro Hbad. destruct st as [affected_users processed_emails].
  destruct event; try reflexivity. exfalso. exact (Hbad d eq_refl).
Qed.

Lemma scan_timeline_not_dict (bad : value) (timeline : list value) :
  In bad timeline -> (forall d, bad <> VDict d) ->
  forall st, exists e, scan_timeline timeline st = Raise e.
Proof.
  intros Hin Hbad.
  induction timeline as [ | event rest IH]; intro st; [ destruct Hin | ].
  cbn [scan_timeline].
  destruct (scan_event event st) as [st1 | e] eqn:Hevent; cbn [rbind].
  - destruct Hin as [-> | Hin].
    + rewrite (scan_event_not_dict bad st Hbad) in Hevent. discriminate Hevent.
    + apply IH. exact Hin.
  - exists e. reflexivity.
Qed.

(** X3. One event of the timeline that is not a dict spoils the whole
    extraction: the result is the empty list, whatever the other events
    are and even when events before it were clicks. *)
Theorem malformed_event_empties_result
    (campaign campaign_id results bad : value) (timeline : list value) (w : world) :
  getitem campaign "id" = Ok campaign_id ->
  answer (get_campaign_summary api (requests w) campaign_id) = Ok results ->
  get results "timeline" (VList []) = Ok (VList timeline) ->
  In bad timeline ->
  (forall d, bad <> VDict d) ->
  fst (extract_campaign_results api isoformat campaign w) = Ok [].
Proof.
  intros Hid Hsummary Htimeline Hin Hbad.
  destruct (scan_timeline_not_dict bad timeline Hin Hbad ([], [])) as [e Hscan].
  unfold extract_campaign_results, extract_body, request. run. unfold emit.
  cbn [requests clock trace].
  rewrite Hid. cbn [requests clock trace]. rewrite Hsummary. cbn [requests clock trace].
  rewrite Htimeline. cbn [len iter]. rewrite Hscan. reflexivity.
Qed.

(** *** What methods 1, 2 and 3 put out *)

Lemma key_eqb_refl (v : value) : hashable v = true -> key_eqb v v = true.
Proof.
  destruct v as [ | b | z | s | l | d ]; cbn; intro H; try discriminate H.
  - reflexivity.
  - destruct b; reflexivity.
  - apply Z.eqb_refl.
  - apply String.eqb_refl.
Qed.

Lemma scan_result_tallied (result : value) (st st' : scan_state) :
  scan_result result st = Ok st' -> tallied st ->
  tallied st' /\ (List.length (fst st') <= S (List.length (fst st)))%nat.
Proof.
  destruct st as [affected_users processed_emails]. unfold scan_result.
  destruct (qualifies result) as [[ | ] | ]; cbn [rbind];
    try (intro H; discriminate H); try (intros [= <-] Hst; split; [ exact Hst | cbn; lia ]).
  destruct (get result "email" (VStr "")) as [address | ]; cbn [rbind];
    [ | intro H; discriminate H ].
  unfold py_and, set_mem, set_add. cbn [rbind].
  destruct (truthy address); [ | intros [= <-] Hst; split; [ exact Hst | cbn; lia ] ].
  destruct (hashable address) eqn:Hhash; cbn [rbind]; [ | intro H; discriminate H ].
  destruct (existsb (key_eqb address) processed_emails) eqn:Hseen; cbn [negb];
    [ intros [= <-] Hst; split; [ exact Hst | cbn; lia ] | ].
  destruct (get_none result "status") as [status | ]; cbn [rbind];
    [ | intro H; discriminate H ].
  destruct (get result "first_name" (VStr "")) as [first | ]; cbn [rbind];
    [ | intro H; discriminate H ].
  destruct (get result "last_name" (VStr "")) as [last | ]; cbn [rbind];
    [ | intro H; discriminate H ].
  destruct (get result "send_date" (VStr "")) as [time | ]; cbn [rbind];
    [ | intro H; discriminate H ].
  intros [= <-] [Hin [Hnodup Hlabels]]. cbn [fst snd] in *.
  split; [ | rewrite length_app; cbn; lia ].
  unfold tallied. cbn [fst snd]. repeat split.
  - intros u Hu. apply in_app_or in Hu. destruct Hu as [Hu | [<- | []]].
    + right. apply Hin. exact Hu.
    + left. reflexivity.
  - rewrite map_app. cbn [map email].
    apply NoDup_app; [ exact Hnodup | repeat constructor; intros [] | ].
    intros k Hk [<- | []].
    apply in_map_iff in Hk. destruct Hk as [v [Hvk Hv]].
    specialize (Hin v Hv). rewrite Hvk in Hin.
    assert (Hfound : existsb (key_eqb address) processed_emails = true).
    { apply existsb_exists. exists address. split; [ exact Hin | ].
      apply key_eqb_refl. exact Hhash. }
    rewrite Hfound in Hseen. discriminate Hseen.
  - apply Forall_app. split; [ exact Hlabels | ].
    constructor; [ | constructor ]. unfold clicked_or_submitted. cbn [event_type].
    destruct (_ || _); [ right | left ]; reflexivity.
Qed.

Lemma scan_results_tallied (campaign_results : list value) :
  forall st st', scan_results campaign_results st = Ok st' -> tallied st ->
  tallied st' /\
  (List.length (fst st') <= List.length campaign_results + List.length (fst st))%nat.
Proof.
  induction campaign_results as [ | result rest IH]; intros st st'; cbn [scan_results].
  - intros [= <-] Hst. split; [ exact Hst | cbn; lia ].
  - destruct (scan_result result st) as [st1 | ] eqn:Hresult; cbn [rbind]; [ | discriminate ].
    intros Hrest Hst.
    destruct (scan_result_tallied result st st1 Hresult Hst) as [Hst1 Hlen1].
    destruct (IH st1 st' Hrest Hst1) as [Hst' Hlen]. split; [ exact Hst' | cbn; lia ].
Qed.

(** X4. Method 2 returns no email twice, at most one user per result
    record, and labels each user "Clicked Link" or "Submitted Data". *)
Theorem method2_emails_are_distinct (campaign_results : list value) (st : scan_state) :
  scan_results campaign_results ([], []) = Ok st ->
  NoDup (map email (fst st)) /\
  Forall clicked_or_submitted (fst st) /\
  (List.length (fst st) <= List.length campaign_results)%nat.
Proof.
  intro Hscan.
  destruct (scan_results_tallied campaign_results ([], []) st Hscan) as [[_ [Hnodup Hlabels]] Hlen].
  - repeat split; [ intros u [] | constructor | constructor ].
  - cbn in Hlen. repeat split; [ exact Hnodup | exact Hlabels | lia ].
Qed.

Lemma reconstruct_target_count (clicked submitted : value) (c s : Z) (made : string)
    (i : Z) (target : value) (affected_users found : list AffectedUser) :
  as_int clicked = Some c -> as_int submitted = Some s ->
  reconstruct_target clicked submitted made i target affected_users = Ok found ->
  Forall clicked_or_submitted affected_users ->
  Forall clicked_or_submitted found /\
  (List.length affected_users <= List.length found <= S (List.length affected_users))%nat /\
  (Z.max c s <= i -> found = affected_users).
Proof.
  intros Hc Hs. unfold reconstruct_target, max2, lt, gt. rewrite Hc, Hs. cbn [rbind].
  assert (Hmost : as_int (if s >? c then submitted else clicked) = Some (Z.max c s)).
  { destruct (s >? c) eqn:Hgt.
    - rewrite Hs. f_equal. apply Z.gtb_lt in Hgt. lia.
    - rewrite Hc. f_equal. rewrite Z.gtb_ltb in Hgt. apply Z.ltb_ge in Hgt. lia. }
  rewrite Hmost. cbn [as_int rbind].
  destruct (Z.max c s >? i) eqn:Hcounted.
  - apply Z.gtb_lt in Hcounted.
    destruct (get target "email" (VStr "")) as [address | ]; cbn [rbind];
      [ | intro H; discriminate H ].
    destruct (truthy address).
    + destruct (get target "first_name" (VStr "")) as [first | ]; cbn [rbind];
        [ | intro H; discriminate H ].
      destruct (get target "last_name" (VStr "")) as [last | ]; cbn [rbind];
        [ | intro H; discriminate H ].
      intros [= <-] Hlabels. repeat split.
      * apply Forall_app. split; [ exact Hlabels | ].
        constructor; [ | constructor ]. unfold clicked_or_submitted. cbn [event_type].
        destruct (s >? i); [ right | left ]; reflexivity.
      * rewrite length_app. cbn. lia.
      * rewrite length_app. cbn. lia.
      * intro Hle. lia.
    + intros [= <-] Hlabels. repeat split; [ exact Hlabels | lia | lia ].
  - intros [= <-] Hlabels. repeat split; [ exact Hlabels | lia | lia ].
Qed.

Lemma reconstruct_targets_count (clicked submitted : value) (c s : Z) (made : string)
    (targets : list value) :
  as_int clicked = Some c -> as_int submitted = Some s ->
  forall i affected_users found,
  0 <= i ->
  reconstruct_targets clicked submitted made i targets affected_users = Ok found ->
  Forall clicked_or_submitted affected_users ->
  Forall clicked_or_submitted found /\
  (List.length found <= List.length affected_users + List.length targets)%nat /\
  Z.of_nat (List.length found)
    <= Z.of_nat (List.length affected_users) + Z.max 0 (Z.max c s - i).
Proof.
  intros Hc Hs.
  induction targets as [ | target rest IH]; intros i affected_users found Hi;
    cbn [reconstruct_targets].
  - intros [= <-] Hlabels. repeat split; [ exact Hlabels | cbn; lia | lia ].
  - destruct (reconstruct_target clicked submitted made i target affected_users)
      as [users1 | ] eqn:Htarget; cbn [rbind]; [ | discriminate ].
    intros Hrest Hlabels.
    destruct (reconstruct_target_count clicked submitted c s made i target
                affected_users users1 Hc Hs Htarget Hlabels) as [Hlabels1 [Hlen1 Hpast]].
    destruct (IH (i + 1) users1 found ltac:(lia) Hrest Hlabels1) as [Hfound [Hlen Hmax]].
    repeat split; [ exact Hfound | cbn; lia | ].
    destruct (Z.le_gt_cases (Z.max c s) i) as [Hle | Hgt].
    + rewrite (Hpast Hle) in *. lia.
    + lia.
Qed.

(** X5. Method 3 makes up at most [max(clicked, submitted_data)] users and
    at most one per target of the group, each labelled "Clicked Link" or
    "Submitted Data". *)
Theorem method3_count_is_bounded
    (clicked submitted : value) (c s : Z) (made : string)
    (targets : list value) (found : list AffectedUser) :
  as_int clicked = Some c ->
  as_int submitted = Some s ->
  reconstruct_targets clicked submitted made 0 targets [] = Ok found ->
  Z.of_nat (List.length found) <= Z.max 0 (Z.max c s) /\
  (List.length found <= List.length targets)%nat /\
  Forall clicked_or_submitted found.
Proof.
  intros Hc Hs Hfound.
  destruct (reconstruct_targets_count clicked submitted c s made targets Hc Hs
              0 [] found ltac:(lia) Hfound ltac:(constructor)) as [Hlabels [Hlen Hmax]].
  cbn in *. repeat split; [ | lia | exact Hlabels ].
  replace (Z.max c s - 0) with (Z.max c s) in Hmax by lia. lia.
Qed.

Lemma scan_event_clicks (event : value) (st st' : scan_state) :
  scan_event event st = Ok st' ->
  Forall from_click_event (fst st) ->
  Forall from_click_event (fst st') /\
  (List.length (fst st') <= S (List.length (fst st)))%nat.
Proof.
  destruct st as [affected_users processed_emails]. unfold scan_event.
  destruct event as [ | | | | | d]; cbn [get rbind]; try (intro H; discriminate H).
  destruct (item_or d "message" (VStr "")) as [ | | | text | | ] eqn:Hraw;
    cbn [lower rbind]; try (intro H; discriminate H).
  destruct (is_click_event (lower_string text)) eqn:Hclick;
    [ | intros [= <-] Hst; split; [ exact Hst | cbn; lia ] ].
  unfold resolve_email.
  destruct (item_or d "details" (VDict [])) as [ | | | | | details];
    cbn [get rbind]; try (intro H; discriminate H).
  unfold set_mem, set_add. cbn [hashable rbind].
  destruct (existsb _ processed_emails);
    [ intros [= <-] Hst; split; [ exact Hst | cbn; lia ] | ].
  assert (Hfound : item_or d "message" (VStr (lower_string text)) = VStr text).
  { destruct (message_as_found d text _ Hraw eq_refl) as [Hfound | [-> _]]; [ exact Hfound | ].
    discriminate Hclick. }
  rewrite Hfound.
  destruct (truthy _); intros [= <-] Hst; cbn [fst snd] in *;
    [ | split; [ exact Hst | lia ] ].
  split; [ | rewrite length_app; cbn; lia ].
  apply Forall_app. split; [ exact Hst | ].
  constructor; [ | constructor ]. exists text. split; [ reflexivity | exact Hclick ].
Qed.

(** X10. Method 1 returns only users found at an event whose lower-cased
    message holds a click indicator, and at most one user per event. *)
Theorem method1_users_come_from_clicks (timeline : list value) (st : scan_state) :
  scan_timeline timeline ([], []) = Ok st ->
  Forall from_click_event (fst st) /\
  (List.length (fst st) <= List.length timeline)%nat.
Proof.
  assert (H : forall st0 st1, scan_timeline timeline st0 = Ok st1 ->
            Forall from_click_event (fst st0) ->
            Forall from_click_event (fst st1) /\
            (List.length (fst st1) <= List.length timeline + List.length (fst st0))%nat).
  { induction timeline as [ | event rest IH]; intros st0 st1; cbn [scan_timeline].
    - intros [= <-] Hst. split; [ exact Hst | cbn; lia ].
    - destruct (scan_event event st0) as [st' | ] eqn:Hevent; cbn [rbind]; [ | discriminate ].
      intros Hrest Hst.
      destruct (scan_event_clicks event st0 st' Hevent Hst) as [Hst' Hlen'].
      destruct (IH st' st1 Hrest Hst') as [Hst1 Hlen]. split; [ exact Hst1 | cbn; lia ]. }
  intro Hscan. destruct (H ([], []) st Hscan ltac:(constructor)) as [Hclicks Hlen].
  cbn in Hlen. split; [ exact Hclicks | lia ].
Qed.

(** *** More on a pass of the monitor *)

(** X6. A pass that finds the campaign not completed and the mails not all
    sent (nothing sent yet, or fewer than the total) never stops the
    monitor, whatever the clicks and submissions and however long it has
    run: it sleeps the check interval and goes round again, the reference
    time untouched. *)
Theorem undelivered_campaign_keeps_waiting
    (campaign_id campaign summary status : value) (stats : list (string * value))
    (sent total : Z) (start_time : Z) (last : option Z) (w : world) :
  answer (get_campaign api (requests w) campaign_id) = Ok campaign ->
  answer (get_campaign_summary api (S (requests w)) campaign_id) = Ok summary ->
  get campaign "status" (VStr "Unknown") = Ok status ->
  in_strs status ["Completed"; "Finished"] = false ->
  get summary "stats" (VDict []) = Ok (VDict stats) ->
  as_int (item_or stats "sent" (VInt 0)) = Some sent ->
  as_int (item_or stats "total" (VInt 0)) = Some total ->
  sent <= 0 \/ sent <> total ->
  let r := poll api campaign_id start_time last w in
  fst r = Ok (Again last) /\
  clock (snd r) = fetched_at api campaign_id w + check_interval.
Proof.
  intros Hcampaign Hsummary Hstatus Hrunning Hstats Hsent Htotal Hless r.
  assert (Hdelivered : all_sent (item_or stats "sent" (VInt 0))
                                (item_or stats "total" (VInt 0)) = Ok false).
  { unfold all_sent, py_and, gt, num_eq. rewrite Hsent, Htotal. cbn [as_int rbind].
    destruct (sent >? 0) eqn:Hpositive; [ | reflexivity ].
    apply Z.gtb_lt in Hpositive. f_equal. apply Z.eqb_neq. lia. }
  unfold r, poll, check_campaign, request, sleep, fetched_at. run. unfold emit.
  cbn [requests clock trace].
  rewrite Hcampaign. cbn [requests clock trace]. rewrite Hsummary.
  cbn [requests clock trace]. rewrite Hstatus, Hstats. cbn [get].
  rewrite Hrunning, Hdelivered. cbn. split; reflexivity.
Qed.

(** X7. A pass that finds every mail sent and neither click nor submission
    stops the monitor exactly when more than one hour has gone by since the
    monitor started: at one hour to the microsecond it still goes on. *)
Theorem idle_campaign_stops_after_an_hour
    (campaign_id campaign summary status : value) (stats : list (string * value))
    (sent clicked submitted : Z) (start_time : Z) (last : option Z) (w : world) :
  answer (get_campaign api (requests w) campaign_id) = Ok campaign ->
  answer (get_campaign_summary api (S (requests w)) campaign_id) = Ok summary ->
  get campaign "status" (VStr "Unknown") = Ok status ->
  in_strs status ["Completed"; "Finished"] = false ->
  get summary "stats" (VDict []) = Ok (VDict stats) ->
  as_int (item_or stats "sent" (VInt 0)) = Some sent ->
  as_int (item_or stats "total" (VInt 0)) = Some sent ->
  as_int (item_or stats "clicked" (VInt 0)) = Some clicked ->
  as_int (item_or stats "submitted_data" (VInt 0)) = Some submitted ->
  0 < sent -> clicked <= 0 -> submitted <= 0 ->
  let elapsed := fetched_at api campaign_id w - start_time in
  let decided := fst (poll api campaign_id start_time last w) in
  (hour < elapsed -> decided = Ok (Done campaign)) /\
  (elapsed <= hour -> decided = Ok (Again last)).
Proof.
  intros Hcampaign Hsummary Hstatus Hrunning Hstats Hsent Htotal Hclicked Hsubmitted
         Hpositive Hnoclick Hnosubmit elapsed decided.
  assert (Hdelivered : all_sent (item_or stats "sent" (VInt 0))
                                (item_or stats "total" (VInt 0)) = Ok true).
  { unfold all_sent, py_and, gt, num_eq. rewrite Hsent, Htotal. cbn [as_int rbind].
    replace (sent >? 0) with true by (symmetry; apply Z.gtb_lt; lia).
    rewrite Z.eqb_refl. reflexivity. }
  assert (Hequal : num_eq (item_or stats "sent" (VInt 0))
                          (item_or stats "total" (VInt 0)) = true).
  { unfold num_eq. rewrite Hsent, Htotal. apply Z.eqb_refl. }
  assert (Hidle : has_activity (item_or stats "clicked" (VInt 0))
                               (item_or stats "submitted_data" (VInt 0)) = Ok false).
  { unfold has_activity, py_or, gt. rewrite Hclicked, Hsubmitted. cbn [as_int rbind].
    replace (clicked >? 0) with false by (symmetry; rewrite Z.gtb_ltb; apply Z.ltb_ge; lia).
    replace (submitted >? 0) with false
      by (symmetry; rewrite Z.gtb_ltb; apply Z.ltb_ge; lia).
    reflexivity. }
  assert (Hdecided : decided =
            Ok (if elapsed >? hour then Done campaign else Again last)).
  { unfold decided, elapsed, poll, check_campaign, request, sleep, fetched_at. run.
    unfold emit. cbn [requests clock trace].
    rewrite Hcampaign. cbn [requests clock trace]. rewrite Hsummary.
    cbn [requests clock trace]. rewrite Hstatus, Hstats. cbn [get].
    rewrite Hrunning, Hdelivered, Hidle, Hequal.
    destruct (_ >? hour); reflexivity. }
  rewrite Hdecided. split; intro Helapsed.
  - replace (elapsed >? hour) with true by (symmetry; apply Z.gtb_lt; lia). reflexivity.
  - replace (elapsed >? hour) with false
      by (symmetry; rewrite Z.gtb_ltb; apply Z.ltb_ge; lia).
    reflexivity.
Qed.

(** *** How long and how often the monitor asks *)

Lemma last_fetch_clock (limit : Z) (campaign_id : value) (w : world) :
  responsive api limit ->
  clock w <= clock (snd (last_fetch api campaign_id w)) <= clock w + limit.
Proof.
  intro Hlimit. destruct (Hlimit (requests w) campaign_id) as [Hc _].
  unfold last_fetch, request. run. unfold emit. cbn [requests clock trace].
  destruct (answer _); cbn [snd clock]; lia.
Qed.

Lemma monitor_clock (limit : Z) (campaign_id : value) (start_time timeout_time : Z) :
  responsive api limit ->
  forall (fuel : nat) (last : option Z) (w : world),
    clock w <= timeout_time + check_interval + 2 * limit ->
    clock w <= clock (snd (monitor api fuel campaign_id start_time timeout_time last w))
      <= timeout_time + check_interval + 3 * limit.
Proof.
  intro Hlimit. assert (Hsign := responsive_nonneg limit Hlimit).
  assert (Hpos := check_interval_positive).
  induction fuel as [ | fuel IH]; intros last w Hentry; rewrite monitor_eq;
    destruct (clock w <? timeout_time) eqn:Hbefore;
    try (assert (Hlast := last_fetch_clock limit campaign_id w Hlimit); lia).
  - cbn [snd]. apply Z.ltb_lt in Hbefore. lia.
  - apply Z.ltb_lt in Hbefore.
    assert (Hhigh := poll_within limit campaign_id start_time last w Hlimit).
    assert (Hlow := check_campaign_not_before campaign_id start_time last w).
    assert (Hpoll := poll_eq campaign_id start_time last w).
    unfold not_before in Hlow.
    destruct (poll api campaign_id start_time last w) as [[[campaign | next] | e] w1];
      cbn [snd] in *.
    + destruct (check_campaign api campaign_id start_time last w) as [[[c | n] | e] w2];
        cbn [snd sleep emit clock] in *; inversion Hpoll; subst; lia.
    + assert (Hstep : clock w <= clock w1).
      { destruct (check_campaign api campaign_id start_time last w) as [[[c | n] | e] w2];
          cbn [snd sleep emit clock] in *; inversion Hpoll; subst; cbn [clock]; lia. }
      specialize (IH next w1 ltac:(lia)). lia.
    + destruct (check_campaign api campaign_id start_time last w) as [[[c | n] | e'] w2];
        inversion Hpoll.
Qed.

(** X8. Whether a pass stops it or not, the monitor is back no later than
    the deadline plus one check interval plus three requests' time (two of
    the last pass and the fetch after the loop), given that every request
    is answered within [limit]. *)
Theorem monitor_returns_in_time
    (campaign_id : value) (timeout limit : Z) (w : world) :
  responsive api limit ->
  0 <= timeout ->
  let r := wait_for_campaign_completion api campaign_id timeout w in
  clock w <= clock (snd r) <= clock w + timeout + check_interval + 3 * limit.
Proof.
  intros Hlimit Htimeout r.
  assert (Hsign := responsive_nonneg limit Hlimit).
  assert (Hpos := check_interval_positive).
  unfold r. rewrite wait_eq.
  set (w0 := emit (Log "Monitoring campaign for completion") w).
  assert (H := monitor_clock limit campaign_id (clock w) (clock w + timeout) Hlimit
                 (passes timeout) None w0).
  unfold w0 in *. cbn [clock emit] in H. apply H. lia.
Qed.

Lemma check_campaign_asks (campaign_id : value) (start_time : Z) (last : option Z) :
  keeps (asks 2) (check_campaign api campaign_id start_time last).
Proof.
  unfold check_campaign.
  apply (asks_bind 1 1); [ apply request_asks | intros ? ].
  apply (asks_bind 1 0); [ apply request_asks | intros ? ].
  apply quiet_asks. quiet.
Qed.

Lemma poll_asks (campaign_id : value) (start_time : Z) (last : option Z) :
  keeps (asks 2) (poll api campaign_id start_time last).
Proof.
  unfold poll. apply asks_try; [ | intro e; quiet ].
  apply (asks_bind 2 0); [ apply check_campaign_asks | intros v ].
  apply quiet_asks. destruct v; quiet.
Qed.

Lemma last_fetch_asks (campaign_id : value) : keeps (asks 1) (last_fetch api campaign_id).
Proof.
  unfold last_fetch. skip_quiet.
  apply (asks_bind 1 0); [ apply request_asks | intros ? ].
  apply quiet_asks. quiet.
Qed.

Lemma monitor_asks (campaign_id : value) (start_time timeout_time : Z) (fuel : nat) :
  forall last, keeps (asks (2 * fuel + 1))
                     (monitor api fuel campaign_id start_time timeout_time last).
Proof.
  induction fuel as [ | fuel IH]; intros last; cbn [monitor];
    apply asks_after_quiet; try solve [ quiet ]; intros t;
    destruct (t <? timeout_time);
    try (apply asks_more with (n := 1%nat); [ lia | apply last_fetch_asks ]).
  - apply quiet_asks. quiet.
  - replace (2 * S fuel + 1)%nat with (2 + (2 * fuel + 1))%nat by lia.
    apply asks_bind; [ apply poll_asks | intros v ].
    destruct v as [campaign | next]; [ apply quiet_asks; quiet | apply IH ].
Qed.

(** X9. The monitor makes at most two requests per pass and one after the
    loop: with [passes timeout] passes at most, that is one pass per check
    interval of the timeout and one more. *)
Theorem monitor_request_budget (campaign_id : value) (timeout : Z) (w : world) :
  (requests (snd (wait_for_campaign_completion api campaign_id timeout w))
     <= requests w + 2 * passes timeout + 1)%nat.
Proof.
  rewrite wait_eq.
  assert (H := monitor_asks campaign_id (clock w) (clock w + timeout) (passes timeout) None
                 (emit (Log "Monitoring campaign for completion") w)).
  unfold asks in H. cbn [requests emit] in H. lia.
Qed.

(** *** Strings: lower-casing and trimming *)

Lemma lower_ascii_idempotent (c : ascii) : lower_ascii (lower_ascii c) = lower_ascii c.
Proof. destruct c as [[|] [|] [|] [|] [|] [|] [|] [|]]; reflexivity. Qed.

Lemma lower_ascii_space (c : ascii) : is_space (lower_ascii c) = is_space c.
Proof. destruct c as [[|] [|] [|] [|] [|] [|] [|] [|]]; reflexivity. Qed.

Lemma lower_ascii_at (c : ascii) : lower_ascii c = "@"%char <-> c = "@"%char.
Proof.
  destruct c as [[|] [|] [|] [|] [|] [|] [|] [|]]; cbn; split; intro H;
    try reflexivity; try discriminate H.
Qed.

Lemma lower_string_idempotent (s : string) : lower_string (lower_string s) = lower_string s.
Proof.
  induction s as [ | c s IH]; cbn; [ reflexivity | ].
  rewrite lower_ascii_idempotent, IH. reflexivity.
Qed.

Lemma at_sign_survives_lower (s : string) :
  substring_of "@" (lower_string s) = substring_of "@" s.
Proof.
  induction s as [ | c s IH]; [ reflexivity | ].
  cbn [lower_string substring_of prefix]. rewrite IH. f_equal.
  destruct (ascii_dec "@" (lower_ascii c)) as [Hl | Hl], (ascii_dec "@" c) as [Hc | Hc].
  - destruct s; reflexivity.
  - exfalso. apply Hc. symmetry. apply lower_ascii_at. symmetry. exact Hl.
  - exfalso. apply Hl. symmetry. apply lower_ascii_at. symmetry. exact Hc.
  - reflexivity.
Qed.

Lemma lstrip_lower (s : string) : lstrip (lower_string s) = lower_string (lstrip s).
Proof.
  induction s as [ | c s IH]; [ reflexivity | ].
  cbn [lower_string lstrip]. rewrite lower_ascii_space.
  destruct (is_space c); [ exact IH | reflexivity ].
Qed.

Lemma rstrip_lower (s : string) : rstrip (lower_string s) = lower_string (rstrip s).
Proof.
  induction s as [ | c s IH]; [ reflexivity | ].
  cbn [lower_string rstrip]. rewrite IH, lower_ascii_space.
  destruct (rstrip s); cbn [lower_string]; [ destruct (is_space c) | ]; reflexivity.
Qed.

Lemma lstrip_starts_clean (s : string) : starts_clean (lstrip s).
Proof.
  induction s as [ | c s IH]; cbn [lstrip]; [ exact I | ].
  destruct (is_space c) eqn:Hc; [ exact IH | exact Hc ].
Qed.

Lemma lstrip_of_clean (s : string) : starts_clean s -> lstrip s = s.
Proof.
  destruct s as [ | c s]; cbn; [ reflexivity | ]. intros ->. reflexivity.
Qed.

Lemma rstrip_keeps_clean (s : string) : starts_clean s -> starts_clean (rstrip s).
Proof.
  destruct s as [ | c s]; cbn [rstrip starts_clean]; [ trivial | ].
  intro Hc. destruct (rstrip s); [ rewrite Hc | ]; exact Hc.
Qed.

Lemma rstrip_idempotent (s : string) : rstrip (rstrip s) = rstrip s.
Proof.
  induction s as [ | c s IH]; [ reflexivity | ].
  cbn [rstrip]. destruct (rstrip s) as [ | c' kept] eqn:Hkept.
  - destruct (is_space c) eqn:Hc; [ reflexivity | ].
    cbn [rstrip]. rewrite Hc. reflexivity.
  - cbn [rstrip] in *. rewrite IH. reflexivity.
Qed.

Lemma strip_idempotent (s : string) : strip (strip s) = strip s.
Proof.
  unfold strip.
  rewrite (lstrip_of_clean (rstrip (lstrip s))).
  - apply rstrip_idempotent.
  - apply rstrip_keeps_clean, lstrip_starts_clean.
Qed.

Lemma strip_lower (s : string) : strip (lower_string s) = lower_string (strip s).
Proof. unfold strip. rewrite lstrip_lower, rstrip_lower. reflexivity. Qed.

(** *** read_targets_csv *)

Lemma read_row_kept (row : value) (targets targets' : list value) :
  read_row row targets = Ok targets' ->
  Forall kept_target targets ->
  Forall kept_target targets' /\
  (List.length targets' <= S (List.length targets))%nat.
Proof.
  unfold read_row, strip_of.
  destruct (get_none row "FirstName") as [a | ]; cbn [rbind]; [ | discriminate ].
  destruct (get_none row "LastName") as [b | ]; cbn [rbind]; [ | discriminate ].
  destruct (get_none row "Email") as [c | ]; cbn [rbind]; [ | discriminate ].
  destruct (get_none row "Position") as [d | ]; cbn [rbind]; [ | discriminate ].
  destruct (or_else a (VStr "")) as [ | | | first | | ]; cbn [rbind]; try discriminate.
  destruct (or_else b (VStr "")) as [ | | | last | | ]; cbn [rbind]; try discriminate.
  destruct (or_else c (VStr "")) as [ | | | address | | ]; cbn [rbind]; try discriminate.
  destruct (or_else d (VStr "")) as [ | | | position | | ]; cbn [rbind]; try discriminate.
  destruct (negb (truthy (VStr (strip address))));
    [ intros [= <-] H; split; [ exact H | lia ] | ].
  destruct (substring_of "@" (strip address)) eqn:Hat; cbn [negb];
    [ | intros [= <-] H; split; [ exact H | lia ] ].
  intros [= <-] H. split; [ | rewrite length_app; cbn; lia ].
  apply Forall_app. split; [ exact H | ].
  constructor; [ | constructor ].
  exists (strip first), (strip last), (lower_string (strip address)), (strip position).
  repeat split.
  - rewrite at_sign_survives_lower. exact Hat.
  - apply lower_string_idempotent.
  - rewrite strip_lower, strip_idempotent. reflexivity.
  - apply strip_idempotent.
  - apply strip_idempotent.
  - apply strip_idempotent.
Qed.

Lemma read_rows_kept (rows : list value) :
  forall targets targets',
  read_rows rows targets = Ok targets' ->
  Forall kept_target targets ->
  Forall kept_target targets' /\
  (List.length targets' <= List.length rows + List.length targets)%nat.
Proof.
  induction rows as [ | row rest IH]; intros targets targets'; cbn [read_rows].
  - intros [= <-] H. split; [ exact H | cbn; lia ].
  - destruct (read_row row targets) as [targets1 | ] eqn:Hrow; cbn [rbind]; [ | discriminate ].
    intros Hrest H.
    destruct (read_row_kept row targets targets1 Hrow H) as [H1 Hlen1].
    destruct (IH targets1 targets' Hrest H1) as [H' Hlen]. split; [ exact H' | cbn; lia ].
Qed.

(** X11. Every target [read_targets_csv] returns has four string fields,
    all trimmed, and an email that holds an at sign (so is not empty) and
    is lower-cased; there is at most one target per row. *)
Theorem read_targets_are_clean
    (fieldnames : option (list string)) (rows targets : list value) :
  read_targets_csv (Table fieldnames rows) = Returned targets ->
  Forall kept_target targets /\ (List.length targets <= List.length rows)%nat.
Proof.
  unfold read_targets_csv.
  destruct (has_required_fields fieldnames) as [[ | ] | ]; try discriminate.
  destruct (read_rows rows []) as [found | ] eqn:Hrows; [ | discriminate ].
  intros [= <-].
  destruct (read_rows_kept rows [] found Hrows ltac:(constructor)) as [Hkept Hlen].
  cbn in Hlen. split; [ exact Hkept | lia ].
Qed.

(** X12. Without the file, without a header, or with a header that lacks
    one of the four columns, [read_targets_csv] ends in [sys.exit(1)]
    whatever the rows hold. *)
Theorem read_targets_needs_all_columns :
  read_targets_csv NoSuchFile = Exit 1 /\
  (forall rows, read_targets_csv (Table None rows) = Exit 1) /\
  (forall names field rows,
     In field required_fields -> ~ In field names ->
     read_targets_csv (Table (Some names) rows) = Exit 1).
Proof.
  split; [ reflexivity | ]. split; [ reflexivity | ].
  intros names field rows Hrequired Hmissing. unfold read_targets_csv, has_required_fields.
  replace (forallb (fun f => existsb (String.eqb f) names) required_fields) with false;
    [ reflexivity | ].
  symmetry. apply not_true_is_false. intro Hall.
  rewrite forallb_forall in Hall. specialize (Hall field Hrequired).
  apply existsb_exists in Hall. destruct Hall as [name [Hname Heq]].
  apply String.eqb_eq in Heq. subst name. exact (Hmissing Hname).
Qed.

Lemma reader_cell (d : list (string * value)) (k : string) :
  (forall k' v, lookup k' d = Some v -> cell_ok v = true) ->
  exists s, strip_of (or_else (item_or d k VNone) (VStr "")) = Ok s.
Proof.
  intro Hcells. unfold item_or.
  destruct (lookup k d) as [v | ] eqn:Hk; [ | eexists; reflexivity ].
  specialize (Hcells k v Hk).
  destruct v as [ | | | s | | ]; try discriminate Hcells.
  - eexists. reflexivity.
  - unfold or_else. destruct (truthy (VStr s)); eexists; reflexivity.
Qed.

Lemma read_row_appends (row : value) (targets : list value) :
  read_row row targets =
    (let? found := read_row row [] in Ok (targets ++ found)%list).
Proof.
  unfold read_row.
  destruct (get_none row "FirstName") as [a | ]; cbn [rbind]; [ | reflexivity ].
  destruct (get_none row "LastName") as [b | ]; cbn [rbind]; [ | reflexivity ].
  destruct (get_none row "Email") as [c | ]; cbn [rbind]; [ | reflexivity ].
  destruct (get_none row "Position") as [d | ]; cbn [rbind]; [ | reflexivity ].
  destruct (strip_of (or_else a (VStr ""))) as [first | ]; cbn [rbind]; [ | reflexivity ].
  destruct (strip_of (or_else b (VStr ""))) as [last | ]; cbn [rbind]; [ | reflexivity ].
  destruct (strip_of (or_else c (VStr ""))) as [address | ]; cbn [rbind]; [ | reflexivity ].
  destruct (strip_of (or_else d (VStr ""))) as [position | ]; cbn [rbind]; [ | reflexivity ].
  destruct (negb (truthy (VStr address))); cbn [rbind];
    [ rewrite app_nil_r; reflexivity | ].
  destruct (negb (substring_of "@" address)); cbn [rbind];
    [ rewrite app_nil_r; reflexivity | reflexivity ].
Qed.

Lemma read_rows_appends (rows : list value) :
  forall targets,
  read_rows rows targets =
    (let? found := read_rows rows [] in Ok (targets ++ found)%list).
Proof.
  induction rows as [ | row rest IH]; intro targets; cbn [read_rows rbind].
  - rewrite app_nil_r. reflexivity.
  - rewrite (read_row_appends row targets).
    destruct (read_row row []) as [found | ]; cbn [rbind]; [ | reflexivity ].
    rewrite (IH (targets ++ found)%list), (IH found).
    destruct (read_rows rest []) as [later | ]; cbn [rbind]; [ | reflexivity ].
    rewrite app_assoc. reflexivity.
Qed.

Lemma read_row_total (row : value) :
  reader_row row -> exists found, read_row row [] = Ok found.
Proof.
  destruct row as [ | | | | | d]; cbn [reader_row]; try contradiction.
  intro Hcells. unfold read_row, get_none. cbn [get rbind].
  destruct (reader_cell d "FirstName" Hcells) as [a ->].
  destruct (reader_cell d "LastName" Hcells) as [b ->].
  destruct (reader_cell d "Email" Hcells) as [c ->].
  destruct (reader_cell d "Position" Hcells) as [p ->].
  cbn [rbind]. destruct (negb _); [ eexists; reflexivity | ].
  destruct (negb _); eexists; reflexivity.
Qed.

Lemma read_rows_total (rows : list value) :
  Forall reader_row rows -> exists found, read_rows rows [] = Ok found.
Proof.
  induction 1 as [ | row rest Hrow Hrest IH]; cbn [read_rows].
  - eexists. reflexivity.
  - destruct (read_row_total row Hrow) as [found ->]. cbn [rbind].
    rewrite read_rows_appends. destruct IH as [later ->]. eexists. reflexivity.
Qed.

(** X13. On rows as [csv.DictReader] yields them (every cell a string or
    [None]) and a header with the four columns, [read_targets_csv] always
    returns, and row by row: the targets of two tables laid end to end are
    those of the first followed by those of the second, so that a row that
    is skipped changes nothing for the others. *)
Theorem read_targets_row_by_row
    (names : list string) (rows1 rows2 : list value) :
  has_required_fields (Some names) = Ok true ->
  Forall reader_row rows1 ->
  Forall reader_row rows2 ->
  exists targets1 targets2,
    read_targets_csv (Table (Some names) rows1) = Returned targets1 /\
    read_targets_csv (Table (Some names) rows2) = Returned targets2 /\
    read_targets_csv (Table (Some names) (rows1 ++ rows2)%list)
      = Returned (targets1 ++ targets2)%list.
Proof.
  intros Hheader Hrows1 Hrows2.
  destruct (read_rows_total rows1 Hrows1) as [targets1 H1].
  destruct (read_rows_total rows2 Hrows2) as [targets2 H2].
  exists targets1, targets2. unfold read_targets_csv. rewrite Hheader, H1, H2.
  split; [ reflexivity | ]. split; [ reflexivity | ].
  assert (H12 : read_rows (rows1 ++ rows2)%list [] = Ok (targets1 ++ targets2)%list).
  { clear Hrows1 Hrows2 Hheader. revert targets1 H1.
    induction rows1 as [ | row rest IH]; intros targets1 H1; cbn [read_rows app] in *.
    - injection H1 as <-. exact H2.
    - destruct (read_row row []) as [found | ]; cbn [rbind] in *; [ | discriminate H1 ].
      rewrite read_rows_appends in H1. rewrite read_rows_appends.
      destruct (read_rows rest []) as [later | ] eqn:Hlater; cbn [rbind] in H1;
        [ | discriminate H1 ].
      injection H1 as <-. rewrite (IH later eq_refl). cbn [rbind].
      rewrite app_assoc. reflexivity. }
  rewrite H12. reflexivity.
Qed.

(** *** Lookups by name and the target group *)

Lemma find_named_first (name : string) (items : list value) (item : value) :
  find_named name items = Ok (Some item) ->
  exists before after,
    items = (before ++ item :: after)%list /\
    named name item /\
    Forall (not_named name) before.
Proof.
  induction items as [ | head rest IH]; cbn [find_named]; [ discriminate | ].
  destruct (get_none head "name") as [found | ] eqn:Hname; cbn [rbind]; [ | discriminate ].
  destruct (eq_str found name) eqn:Heq.
  - intros [= <-]. exists [], rest. repeat split; [ | constructor ].
    exists found. split; assumption.
  - intro Hrest. destruct (IH Hrest) as [before [after [-> [Hnamed Hbefore]]]].
    exists (head :: before), after. repeat split; [ exact Hnamed | ].
    constructor; [ | exact Hbefore ]. exists found. split; assumption.
Qed.

Lemma find_named_skips (name : string) (before : list value) (rest : list value) :
  Forall (not_named name) before ->
  find_named name (before ++ rest) = find_named name rest.
Proof.
  induction 1 as [ | head before [found [Hname Heq]] Hbefore IH]; [ reflexivity | ].
  cbn [app find_named]. rewrite Hname. cbn [rbind]. rewrite Heq. exact IH.
Qed.

(** X14. [get_smtp_profile], [get_template] and [get_landing_page] return
    the first item of the listing whose name is the one asked for: an item
    is returned exactly when it is that first item, so one that is there is
    returned.  In every other case (no such item, a failed request, a
    listing that is not a list of dicts) they end in [sys.exit(3)]. *)
Theorem lookup_returns_first_of_that_name (api' : GoPhishSetup) (name : string) :
  first_of_that_name name (get_smtp_profiles api') (get_smtp_profile api' name) /\
  first_of_that_name name (get_templates api') (get_template api' name) /\
  first_of_that_name name (get_pages api') (get_landing_page api' name).
Proof.
  assert (H : forall listing, first_of_that_name name listing (get_by_name listing name)).
  { intro listing. split; [ intro item; split | ].
    - intros [fetched [before [after [-> [Hiter [[found [Hname Heq]] Hbefore]]]]]].
      unfold get_by_name. cbn [rbind]. rewrite Hiter. cbn [rbind].
      rewrite (find_named_skips name before (item :: after) Hbefore).
      cbn [find_named]. rewrite Hname. cbn [rbind]. rewrite Heq. reflexivity.
    - unfold get_by_name.
      destruct listing as [fetched | ]; cbn [rbind]; [ | discriminate ].
      destruct (iter fetched) as [items | ] eqn:Hiter; cbn [rbind]; [ | discriminate ].
      destruct (find_named name items) as [[found | ] | ] eqn:Hfind; try discriminate.
      intros [= ->].
      destruct (find_named_first name items item Hfind) as [before [after [-> [Hn Hb]]]].
      exists fetched, before, after. repeat split; assumption.
    - intro code. unfold get_by_name.
      destruct (let? fetched := listing in let? items := iter fetched in find_named name items)
        as [[item | ] | ]; intros [= <-]; reflexivity. }
  split; [ apply H | split; apply H ].
Qed.

(** X15. When the service already has a group of the wanted name,
    [create_target_group] returns the first such group as it is: the
    targets read from the CSV play no part and nothing is created. *)
Theorem existing_group_is_reused
    (api' : GoPhishSetup) (existing group members : value)
    (before after targets : list value) (size : Z) (group_name : string) :
  get_groups api' = Ok existing ->
  iter existing = Ok (before ++ group :: after)%list ->
  Forall (not_named group_name) before ->
  named group_name group ->
  get group "targets" (VList []) = Ok members ->
  len members = Ok size ->
  create_target_group api' targets group_name = Returned group.
Proof.
  intros Hgroups Hiter Hbefore [found [Hname Heq]] Hmembers Hsize.
  unfold create_target_group, create_target_group_body.
  rewrite Hgroups. cbn [rbind]. rewrite Hiter. cbn [rbind].
  rewrite (find_named_skips group_name before (group :: after) Hbefore).
  cbn [find_named]. rewrite Hname. cbn [rbind]. rewrite Heq. cbn [rbind].
  rewrite Hmembers. cbn [rbind]. rewrite Hsize. reflexivity.
Qed.

Lemma find_named_none (name : string) (items : list value) :
  Forall (not_named name) items -> find_named name items = Ok None.
Proof.
  intro H. rewrite <- (app_nil_r items). rewrite find_named_skips by exact H. reflexivity.
Qed.

Lemma gophish_targets_kept (targets : list value) :
  Forall kept_target targets -> gophish_targets targets = Ok targets.
Proof.
  induction 1 as [ | target rest [f [l [a [p [-> _]]]]] Hrest IH]; [ reflexivity | ].
  cbn [gophish_targets]. unfold target_of at 1 2 3 4. cbn [getitem lookup String.eqb Ascii.eqb Bool.eqb rbind].
  rewrite IH. reflexivity.
Qed.

(** X16. From the CSV to the service: when no group of the wanted name
    exists, the group that [create_target_group] posts has that name and,
    as its targets, exactly the list [read_targets_csv] returned, in its
    order; what the service answers is returned, and a refusal ends in
    [sys.exit(3)]. *)
Theorem new_group_holds_the_csv_targets
    (api' : GoPhishSetup) (fieldnames : option (list string))
    (rows targets groups : list value) (existing : value) (group_name : string) :
  read_targets_csv (Table fieldnames rows) = Returned targets ->
  get_groups api' = Ok existing ->
  iter existing = Ok groups ->
  Forall (not_named group_name) groups ->
  create_target_group api' targets group_name =
    match create_group api' (group_data group_name targets) with
    | Ok created => Returned created
    | Raise _ => Exit 3
    end.
Proof.
  intros Hread Hgroups Hiter Hnone.
  assert (Hkept : Forall kept_target targets).
  { revert Hread. unfold read_targets_csv.
    destruct (has_required_fields fieldnames) as [[ | ] | ]; try discriminate.
    destruct (read_rows rows []) as [found | ] eqn:Hrows; [ | discriminate ].
    intros [= <-]. exact (proj1 (read_rows_kept rows [] found Hrows ltac:(constructor))). }
  unfold create_target_group, create_target_group_body.
  rewrite Hgroups. cbn [rbind]. rewrite Hiter. cbn [rbind].
  rewrite (find_named_none group_name groups Hnone). cbn [rbind].
  rewrite (gophish_targets_kept targets Hkept). reflexivity.
Qed.

(** *** Warnings *)

Lemma user_dict_fields (u : AffectedUser) :
  getitem (user_dict u) "email" = Ok (email u) /\
  getitem (user_dict u) "first_name" = Ok (first_name u) /\
  getitem (user_dict u) "last_name" = Ok (last_name u).
Proof. repeat split; reflexivity. Qed.

Lemma attempted_app (a b : list mail_event) :
  attempted (a ++ b) = (attempted a ++ attempted b)%list.
Proof.
  induction a as [ | e a IH]; [ reflexivity | ].
  destruct e; cbn [app attempted]; rewrite IH; reflexivity.
Qed.

Lemma paused_app (a b : list mail_event) : paused (a ++ b) = paused a + paused b.
Proof.
  induction a as [ | e a IH]; [ reflexivity | ].
  destruct e; cbn [app paused]; rewrite IH; lia.
Qed.

Lemma send_warning_email_events (smtp : transport) (n : nat) (address first last : value) :
  attempted (send_warning_email smtp n address first last) = [address] /\
  paused (send_warning_email smtp n address first last) = 0.
Proof.
  unfold send_warning_email. destruct (smtp n address); split; reflexivity.
Qed.

(** X17. [send_warning_emails] on the users of an extraction tries every
    user once, in order, whether the earlier attempts went through or not,
    pauses two seconds after each attempt, and returns normally. *)
Theorem every_user_is_warned_once
    (smtp : transport) (attempts : nat) (affected_users : list AffectedUser) :
  let run := send_warning_emails smtp attempts (map user_dict affected_users) in
  snd run = Ok tt /\
  attempted (fst run) = map email affected_users /\
  paused (fst run) = 2 * Z.of_nat (List.length affected_users).
Proof.
  revert attempts.
  induction affected_users as [ | u users IH]; intro attempts;
    [ repeat split; reflexivity | ].
  cbn [map send_warning_emails].
  destruct (user_dict_fields u) as [-> [-> ->]]. cbn [rbind].
  specialize (IH (S attempts)). cbn zeta in IH.
  destruct (send_warning_emails smtp (S attempts) (map user_dict users)) as [later ending].
  cbn [fst snd] in *. destruct IH as [-> [Hattempted Hpaused]].
  destruct (send_warning_email_events smtp attempts (email u) (first_name u) (last_name u))
    as [Ha Hp].
  split; [ reflexivity | ]. split.
  - rewrite attempted_app, Ha. cbn [attempted app]. rewrite Hattempted. reflexivity.
  - rewrite paused_app, Hp. cbn [paused]. rewrite Hpaused.
    cbn [List.length]. lia.
Qed.

(** X18. A user dict without the key ['email'] ends the round of warnings:
    the exception of the lookup comes out of the handler, the users before
    it have been tried and those after it are not. *)
Theorem user_without_email_stops_the_round
    (smtp : transport) (attempts : nat) (before : list AffectedUser)
    (user : value) (after : list value) (e : exn) :
  getitem user "email" = Raise e ->
  let run := send_warning_emails smtp attempts
               (map user_dict before ++ user :: after)%list in
  snd run = Raise e /\
  attempted (fst run) = map email before.
Proof.
  intro Hemail. revert attempts.
  induction before as [ | u users IH]; intro attempts.
  - cbn [map app send_warning_emails]. rewrite Hemail. cbn [rbind]. split; reflexivity.
  - cbn [map app send_warning_emails].
    destruct (user_dict_fields u) as [-> [-> ->]]. cbn [rbind].
    specialize (IH (S attempts)). cbn zeta in IH.
    destruct (send_warning_emails smtp (S attempts) (map user_dict users ++ user :: after)%list)
      as [later ending].
    cbn [fst snd] in *. destruct IH as [-> Hattempted].
    destruct (send_warning_email_events smtp attempts (email u) (first_name u) (last_name u))
      as [Ha _].
    split; [ reflexivity | ].
    rewrite attempted_app, Ha. cbn [attempted app]. rewrite Hattempted. reflexivity.
Qed.

(** *** Substrings *)

Lemma append_assoc (a b c : string) : ((a ++ b) ++ c = a ++ (b ++ c))%string.
Proof. induction a as [ | x a IH]; cbn; [ reflexivity | rewrite IH; reflexivity ]. Qed.

Lemma prefix_spec (a b : string) : prefix a b = true <-> exists s, b = (a ++ s)%string.
Proof.
  revert b. induction a as [ | x a IH]; intro b.
  - split; [ intros _; exists b; reflexivity | intros _; destruct b; reflexivity ].
  - destruct b as [ | y b]; cbn [prefix];
      [ split; [ discriminate | intros [s Hs]; discriminate Hs ] | ].
    destruct (ascii_dec x y) as [<- | Hxy].
    + rewrite IH. split; intros [s Hs]; exists s.
      * cbn. rewrite Hs. reflexivity.
      * cbn in Hs. injection Hs as Hs. exact Hs.
    + split; [ discriminate | ]. intros [s Hs]. cbn in Hs. injection Hs as Hx _.
      exfalso. apply Hxy. symmetry. exact Hx.
Qed.

Lemma substring_of_spec (a b : string) :
  substring_of a b = true <-> exists p s, b = (p ++ a ++ s)%string.
Proof.
  induction b as [ | y b IH]; cbn [substring_of].
  - rewrite orb_false_r, prefix_spec. split.
    + intros [s Hs]. exists "", s. exact Hs.
    + intros [p [s Hs]]. destruct p; [ exists s; exact Hs | discriminate Hs ].
  - rewrite orb_true_iff, prefix_spec, IH. split.
    + intros [[s Hs] | [p [s Hs]]].
      * exists "", s. exact Hs.
      * exists (String y p), s. cbn. rewrite Hs. reflexivity.
    + intros [p [s Hs]]. destruct p as [ | x p].
      * left. exists s. exact Hs.
      * right. cbn in Hs. injection Hs as _ Hs. exists p, s. exact Hs.
Qed.

Lemma substring_of_trans (a b c : string) :
  substring_of a b = true -> substring_of b c = true -> substring_of a c = true.
Proof.
  rewrite !substring_of_spec. intros [p1 [s1 ->]] [p2 [s2 ->]].
  exists (p2 ++ p1)%string, (s1 ++ s2)%string.
  rewrite !append_assoc. reflexivity.
Qed.

(** *** The debug scan against method 1 *)

Lemma click_event_is_debug_event (message : string) :
  is_click_event message = true ->
  existsb (fun keyword => substring_of keyword message) debug_keywords = true.
Proof.
  unfold is_click_event. intro H. apply existsb_exists in H.
  destruct H as [indicator [Hin Hsub]].
  assert (Hroot : substring_of "click" indicator = true \/
                  substring_of "submit" indicator = true).
  { cbn in Hin.
    repeat (destruct Hin as [<- | Hin]; [ first [ left; reflexivity | right; reflexivity ] | ]).
    destruct Hin. }
  apply existsb_exists. destruct Hroot as [Hroot | Hroot].
  - exists "click". split; [ cbn; auto | ].
    exact (substring_of_trans _ _ _ Hroot Hsub).
  - exists "submit". split; [ cbn; auto | ].
    exact (substring_of_trans _ _ _ Hroot Hsub).
Qed.

Lemma debug_event_grows (event : value) (listed listed' : list AffectedUser) :
  debug_event event listed = Ok listed' -> incl listed listed'.
Proof.
  unfold debug_event.
  repeat step; intros [= <-]; try apply incl_refl; apply incl_appl, incl_refl.
Qed.

Lemma debug_event_covers (event : value) (st st' : scan_state)
    (listed listed' : list AffectedUser) :
  scan_event event st = Ok st' ->
  debug_event event listed = Ok listed' ->
  incl (fst st) listed ->
  incl (fst st') listed'.
Proof.
  intros Hscan Hdebug Hincl.
  assert (Hgrows := debug_event_grows event listed listed' Hdebug).
  revert Hscan Hdebug.
  destruct st as [affected_users processed_emails]. unfold scan_event, debug_event.
  destruct event as [ | | | | | d]; cbn [get rbind]; try (intro H; discriminate H).
  destruct (item_or d "message" (VStr "")) as [ | | | text | | ] eqn:Hraw;
    cbn [lower rbind]; try (intro H; discriminate H).
  unfold is_debug_event. cbn [lower rbind].
  destruct (is_click_event (lower_string text)) eqn:Hclick;
    [ | intros [= <-] _; cbn [fst] in *; exact (incl_tran Hincl Hgrows) ].
  rewrite (click_event_is_debug_event _ Hclick).
  unfold resolve_email.
  destruct (item_or d "details" (VDict [])) as [ | | | | | details];
    cbn [get rbind]; try (intro H; discriminate H).
  unfold set_mem, set_add. cbn [hashable rbind].
  destruct (existsb _ processed_emails);
    [ intros [= <-] _; cbn [fst] in *; exact (incl_tran Hincl Hgrows) | ].
  assert (Hfound : item_or d "message" (VStr (lower_string text)) = VStr text).
  { destruct (message_as_found d text _ Hraw eq_refl) as [Hfound | [-> _]]; [ exact Hfound | ].
    discriminate Hclick. }
  rewrite Hfound.
  destruct (truthy _); intros [= <-] [= <-]; cbn [fst] in *.
  - apply incl_app; [ apply incl_appl; exact Hincl | apply incl_appr; apply incl_refl ].
  - apply incl_appl. exact Hincl.
Qed.

(** X19. Whatever the timeline, every user that method 1 of the extraction
    returns is also in the list the debug script builds from it, as the
    same record, whenever both scans run to their end. *)
Theorem debug_scan_lists_every_extracted_user
    (timeline : list value) (st : scan_state) (listed : list AffectedUser) :
  scan_timeline timeline ([], []) = Ok st ->
  debug_scan timeline [] = Ok listed ->
  incl (fst st) listed.
Proof.
  assert (H : forall st0 st1 listed0 listed1,
            scan_timeline timeline st0 = Ok st1 ->
            debug_scan timeline listed0 = Ok listed1 ->
            incl (fst st0) listed0 -> incl (fst st1) listed1).
  { induction timeline as [ | event rest IH]; intros st0 st1 listed0 listed1;
      cbn [scan_timeline debug_scan].
    - intros [= <-] [= <-] Hincl. exact Hincl.
    - destruct (scan_event event st0) as [st' | ] eqn:Hscan; cbn [rbind]; [ | discriminate ].
      destruct (debug_event event listed0) as [listed' | ] eqn:Hdebug; cbn [rbind];
        [ | discriminate ].
      intros Hrest Hdrest Hincl.
      exact (IH st' st1 listed' listed1 Hrest Hdrest
               (debug_event_covers event st0 st' listed0 listed' Hscan Hdebug Hincl)). }
  intros Hscan Hdebug. apply (H ([], []) st [] listed Hscan Hdebug). apply incl_refl.
Qed.

(** *** The API client *)

Lemma rstrip_char_app (c : ascii) (s : string) :
  rstrip_char c (s ++ String c EmptyString) = rstrip_char c s.
Proof.
  induction s as [ | x s IH]; cbn [append rstrip_char].
  - rewrite Ascii.eqb_refl. reflexivity.
  - rewrite IH. reflexivity.
Qed.

Lemma rstrip_char_idempotent (c : ascii) (s : string) :
  rstrip_char c (rstrip_char c s) = rstrip_char c s.
Proof.
  induction s as [ | x s IH]; [ reflexivity | ].
  cbn [rstrip_char]. destruct (rstrip_char c s) as [ | y kept] eqn:Hkept.
  - destruct (Ascii.eqb x c) eqn:Hx; [ reflexivity | ].
    cbn [rstrip_char]. rewrite Hx. reflexivity.
  - cbn [rstrip_char] in *. rewrite IH. reflexivity.
Qed.

(** X20. A slash at the end of the configured URL makes no difference: the
    client built from [url + "/"] is the client built from [url], so every
    request goes to the same address, and the base the client keeps is
    already free of trailing slashes. *)
Theorem trailing_slash_is_ignored (url : string) (http' : session) :
  new_client (url ++ "/") http' = new_client url http' /\
  new_client (base_url (new_client url http')) http' = new_client url http' /\
  forall method endpoint data,
    make_request (new_client (url ++ "/") http') method endpoint data =
    make_request (new_client url http') method endpoint data.
Proof.
  assert (H : new_client (url ++ "/") http' = new_client url http').
  { unfold new_client. rewrite rstrip_char_app. reflexivity. }
  split; [ exact H | ]. split.
  - unfold new_client. cbn [base_url]. rewrite rstrip_char_idempotent. reflexivity.
  - intros method endpoint data. rewrite H. reflexivity.
Qed.

Lemma upper_of_lower (c : ascii) : upper_ascii (lower_ascii c) = upper_ascii c.
Proof. destruct c as [[|] [|] [|] [|] [|] [|] [|] [|]]; reflexivity. Qed.

Lemma upper_string_of_lower (s : string) :
  upper_string (lower_string s) = upper_string s.
Proof.
  induction s as [ | c s IH]; cbn; [ reflexivity | ].
  rewrite upper_of_lower, IH. reflexivity.
Qed.

(** X21. [_make_request] reads the method without regard to case, and a
    method that is none of GET, POST, PUT and DELETE is refused before
    anything is sent: the outcome is the [ValueError], whatever the
    session would have answered. *)
Theorem method_is_checked_before_sending
    (client : api_client) (method endpoint : string) (data : option value) :
  make_request client (lower_string method) endpoint data =
    make_request client method endpoint data /\
  (verb_of method = None ->
   forall http', make_request {| base_url := base_url client; http := http' |}
                              method endpoint data = UnsupportedMethod).
Proof.
  split.
  - unfold make_request, verb_of. rewrite upper_string_of_lower. reflexivity.
  - intros Hverb http'. unfold make_request. rewrite Hverb. reflexivity.
Qed.

End Properties.

(** ** Runs on the sample services *)

Import Samples.

(** C1 on a campaign dict without ['id'], on [None], and with the service
    down: an empty list each time. *)
Example extract_without_id :
  fst (extract_campaign_results counters_only stamp (VDict [("name", VStr "May")]) boot) = Ok [].
Proof. reflexivity. Qed.

Example extract_from_none :
  fst (extract_campaign_results counters_only stamp VNone boot) = Ok [].
Proof. reflexivity. Qed.

Example extract_service_down :
  fst (extract_campaign_results (steady 0 (Raise RequestFailed) (Raise RequestFailed))
         stamp sample_campaign boot) = Ok [].
Proof. reflexivity. Qed.

(** C2 on a service whose first three requests fail: the monitor sleeps
    through them and returns the completed campaign. *)
Example monitor_rides_out_failures :
  let r := wait_for_campaign_completion
             (flaky 3 sample_campaign (VDict (summary_of [] 3 0 0))) (VInt 7) (hours 24) boot in
  fst r = Ok (Some sample_campaign) /\ clock (snd r) = 3 * check_interval.
Proof. vm_compute. split; reflexivity. Qed.

(** C3. Two matched events of two different addresses, each with its own
    message, whose keys coincide: only the first one comes out. *)
Lemma colliding_keys_drop_a_user :
  fst (extract_campaign_results collision stamp sample_campaign boot) =
    Ok [ {| first_name := VStr ""; last_name := VStr "";
            email := VStr "ann@example.com";
            event_time := VStr "2024-05-01T10:00:00Z";
            event_type := VStr "alt_Clicked Link" |} ] /\
  event_key (VStr "ann@example.com") "alt_clicked link" =
  event_key (VStr "ann@example.com_alt") "clicked link" /\
  is_click_event "alt_clicked link" = true /\
  is_click_event "clicked link" = true.
Proof. vm_compute. repeat split; reflexivity. Qed.

Lemma sending_never_stops (delay : N) : never_stops (sending delay) (VInt 7).
Proof.
  intros start_time last w campaign. vm_compute. intro H. discriminate H.
Qed.

Lemma sending_responsive (delay : N) : responsive (sending delay) (Z.of_N delay).
Proof. intros n campaign_id. cbn. split; lia. Qed.

Example one_second_requests_return_late :
  clock (snd (wait_for_campaign_completion (sending 1000000) (VInt 7) (hours 1) boot))
    = hours 1 + 13 * second.
Proof. vm_compute. reflexivity. Qed.

Example quarter_hour_timeout_returns_late :
  clock (snd (wait_for_campaign_completion (sending 0) (VInt 7) (15 * minute) boot))
    = 15 * minute + 5 * minute.
Proof. vm_compute. reflexivity. Qed.

(** C4 (counterexample). With requests that take one second each and a
    timeout of one hour the monitor returns thirteen seconds after the
    deadline; and with requests that take no time at all and a timeout of a
    quarter of an hour it returns five minutes after it, the deadline
    falling in the middle of a sleep.  No stop condition fires in either
    call. *)
Lemma monitor_overshoots_deadline :
  ~ returns_at_deadline (sending 1000000) (VInt 7) (hours 1) boot /\
  ~ returns_at_deadline (sending 0) (VInt 7) (15 * minute) boot.
Proof.
  split; intro H.
  - destruct (H (never_stops_in_no_call _ _ _ _ (sending_never_stops 1000000)))
      as [campaign [_ Hclock]].
    vm_compute in Hclock. discriminate Hclock.
  - destruct (H (never_stops_in_no_call _ _ _ _ (sending_never_stops 0)))
      as [campaign [_ Hclock]].
    vm_compute in Hclock. discriminate Hclock.
Qed.

Lemma clicked_once_responsive (status : string) : responsive (clicked_once status) 0.
Proof. intros n campaign_id. cbn. split; lia. Qed.

(** A campaign in progress with one click counted, watched for half an
    hour: the passes at 0, 10 and 20 minutes go round again, the third one
    twenty minutes after the click was first seen, and the check at 30
    minutes is on the deadline. *)
Lemma click_does_not_stop_half_an_hour :
  no_stop_in_call (clicked_once "In progress") (VInt 7) (30 * minute) boot.
Proof.
  intros seen w1 campaign Hloop Hbefore. unfold checks_of_call in Hloop.
  repeat
    (inversion Hloop as [ ? ? | ? next ? ? w2 ? Hclock Hpoll Hrest ]; subst; clear Hloop;
     [ solve [ vm_compute; intro Hstop; discriminate Hstop
             | vm_compute in Hbefore; discriminate Hbefore ]
     | try solve [ vm_compute in Hclock; discriminate Hclock ];
       clear Hclock; vm_compute in Hpoll; injection Hpoll as <- <-;
       rename Hrest into Hloop ]).
Qed.

(** The same service does stop a pass made later: forty minutes after the
    click was first seen the activity timeout has run out. *)
Example click_stops_a_later_pass :
  ~ never_stops (clicked_once "In progress") (VInt 7) /\
  clock (snd (wait_for_campaign_completion (clicked_once "In progress") (VInt 7)
                (hours 1) boot)) = 40 * minute.
Proof.
  split; [ | vm_compute; reflexivity ].
  intro H.
  apply (H 0 (Some 0) {| clock := 40 * minute; requests := 8; trace := [] |}
           (VDict (campaign_of "In progress" []))).
  vm_compute. reflexivity.
Qed.

Lemma timeout_returns_last_snapshot_witness :
  fst (wait_for_campaign_completion (clicked_once "In progress") (VInt 7) (30 * minute) boot) =
    Ok (Some (VDict (campaign_of "In progress" []))) /\
  clock (snd (wait_for_campaign_completion (clicked_once "In progress") (VInt 7)
                (30 * minute) boot)) = 30 * minute.
Proof.
  destruct (timeout_returns_last_snapshot (clicked_once "In progress") (VInt 7)
              (30 * minute) 0 boot
              click_does_not_stop_half_an_hour (clicked_once_responsive "In progress") eq_refl)
    as [seen [w_exit [_ [_ [Hworld Hreturn]]]]].
  split; [ apply Hreturn; reflexivity | vm_compute; reflexivity ].
Defined.



Lemma stats_reconstruction_first_group_witness :
  fst (extract_campaign_results counters_only stamp sample_campaign boot) =
    Ok [ {| first_name := VStr "Ann"; last_name := VStr "Doe";
            email := VStr "ann@example.com";
            event_time := VStr "0"; event_type := VStr "Submitted Data" |};
         {| first_name := VStr "Bob"; last_name := VStr "Doe";
            email := VStr "bob@example.com";
            event_time := VStr "0"; event_type := VStr "Clicked Link" |} ].
Proof.
  exact (stats_reconstruction_first_group counters_only stamp sample_campaign (VInt 7)
           (summary_of [] 3 2 1) (stats_of 3 2 1) (campaign_of "Completed" []) staff
           ann bob cy (VStr "ann@example.com") (VStr "bob@example.com") (VStr "cy@example.com")
           [visitors] boot
           eq_refl (fun _ => eq_refl) (fun _ => eq_refl) eq_refl eq_refl eq_refl eq_refl
           eq_refl eq_refl eq_refl eq_refl eq_refl eq_refl eq_refl eq_refl eq_refl).
Defined.

Lemma method2_runs_iff_timeline_empty_witness :
  ~ In (Log "Timeline is empty, trying alternative extraction method...")
       (since boot (snd (extract_campaign_results opened_only stamp sample_campaign boot))).
Proof.
  intro Hin.
  destruct (method2_runs_iff_timeline_empty opened_only stamp sample_campaign (VInt 7)
              (VDict (summary_of [event "Email Opened" "ann@example.com"] 3 0 0))
              (VList [event "Email Opened" "ann@example.com"]) 1
              [event "Email Opened" "ann@example.com"] [] [] boot
              eq_refl eq_refl eq_refl eq_refl eq_refl eq_refl) as [[Honly _] _].
  destruct (Honly Hin) as [_ Hsize]. discriminate Hsize.
Defined.


Lemma completed_campaign_returns_on_first_poll_witness :
  fst (wait_for_campaign_completion (clicked_once "Completed") (VInt 7) (hours 24) boot) =
    Ok (Some sample_campaign).
Proof.
  exact (proj1 (completed_campaign_returns_on_first_poll (clicked_once "Completed") (VInt 7)
                  sample_campaign (VDict (summary_of [] 3 1 0)) (VStr "Completed")
                  (stats_of 3 1 0) (hours 24) boot
                  eq_refl eq_refl eq_refl eq_refl eq_refl eq_refl)).
Defined.


(** ** Further runs on the sample services *)

Lemma timeline_hit_asks_once_witness :
  requests (snd (extract_campaign_results capitals stamp sample_campaign boot)) = 1%nat.
Proof.
  exact (proj1 (proj2 (timeline_hit_asks_once capitals stamp sample_campaign (VInt 7)
    (VDict (summary_of [event "Clicked Link" "Ann@Example.com"] 3 1 0))
    (VList [event "Clicked Link" "Ann@Example.com"]) 1
    [event "Clicked Link" "Ann@Example.com"] _ _ boot
    eq_refl eq_refl eq_refl eq_refl eq_refl eq_refl ltac:(discriminate)))).
Defined.

Lemma malformed_event_empties_result_witness :
  fst (extract_campaign_results spoiled stamp sample_campaign boot) = Ok [].
Proof.
  apply (malformed_event_empties_result spoiled stamp sample_campaign (VInt 7)
           (VDict (summary_of [event "Clicked Link" "ann@example.com"; VNone] 3 1 0))
           VNone [event "Clicked Link" "ann@example.com"; VNone] boot
           eq_refl eq_refl eq_refl).
  - right. left. reflexivity.
  - intros d H. discriminate H.
Defined.

Lemma method2_emails_are_distinct_witness :
  scan_results [VDict clicker; VDict reporter; VDict clicker] ([], []) =
    Ok ([ {| first_name := VStr ""; last_name := VStr "";
             email := VStr "dana@example.com";
             event_time := VStr ""; event_type := VStr "Clicked Link" |} ],
        [VStr "dana@example.com"]) /\
  NoDup [VStr "dana@example.com"].
Proof.
  split; [ reflexivity | ].
  exact (proj1 (method2_emails_are_distinct
                  [VDict clicker; VDict reporter; VDict clicker] _ eq_refl)).
Defined.

Lemma method3_count_is_bounded_witness :
  exists found,
    reconstruct_targets (VInt 2) (VInt 1) "now" 0 [VDict ann; VDict bob; VDict cy] [] = Ok found /\
    Z.of_nat (List.length found) <= 2.
Proof.
  eexists. split; [ reflexivity | ].
  exact (proj1 (method3_count_is_bounded (VInt 2) (VInt 1) 2 1 "now"
                  [VDict ann; VDict bob; VDict cy] _ eq_refl eq_refl eq_refl)).
Defined.

Lemma undelivered_campaign_keeps_waiting_witness :
  fst (poll (sending 0) (VInt 7) 0 None
         {| clock := 5 * hour; requests := 0; trace := [] |}) = Ok (Again None).
Proof.
  assert (Hless : 1 <= 0 \/ 1 <> 3) by (right; discriminate).
  assert (H := undelivered_campaign_keeps_waiting (sending 0) (VInt 7)
                 (VDict (campaign_of "In progress" [])) (VDict (summary_of [] 1 0 0))
                 (VStr "In progress") (stats_of 1 0 0) 1 3 0 None
                 {| clock := 5 * hour; requests := 0; trace := [] |}
                 eq_refl eq_refl eq_refl eq_refl eq_refl eq_refl eq_refl Hless).
  exact (proj1 H).
Defined.

Lemma idle_campaign_stops_after_an_hour_witness :
  fst (poll idle (VInt 7) 0 None {| clock := hour; requests := 0; trace := [] |})
    = Ok (Again None) /\
  fst (poll idle (VInt 7) 0 None {| clock := hour + 1; requests := 0; trace := [] |})
    = Ok (Done (VDict (campaign_of "In progress" []))).
Proof.
  split.
  - apply (proj2 (idle_campaign_stops_after_an_hour idle (VInt 7)
             (VDict (campaign_of "In progress" [])) (VDict (summary_of [] 3 0 0))
             (VStr "In progress") (stats_of 3 0 0) 3 0 0 0 None
             {| clock := hour; requests := 0; trace := [] |}
             eq_refl eq_refl eq_refl eq_refl eq_refl eq_refl eq_refl eq_refl eq_refl
             eq_refl ltac:(discriminate) ltac:(discriminate))).
    discriminate.
  - apply (proj1 (idle_campaign_stops_after_an_hour idle (VInt 7)
             (VDict (campaign_of "In progress" [])) (VDict (summary_of [] 3 0 0))
             (VStr "In progress") (stats_of 3 0 0) 3 0 0 0 None
             {| clock := hour + 1; requests := 0; trace := [] |}
             eq_refl eq_refl eq_refl eq_refl eq_refl eq_refl eq_refl eq_refl eq_refl
             eq_refl ltac:(discriminate) ltac:(discriminate))).
    reflexivity.
Defined.

Lemma monitor_returns_in_time_witness :
  clock (snd (wait_for_campaign_completion (sending 1000000) (VInt 7) (hours 1) boot))
    <= hours 1 + check_interval + 3 * second.
Proof.
  exact (proj2 (monitor_returns_in_time (sending 1000000) (VInt 7) (hours 1) second boot
                  (sending_responsive 1000000) ltac:(discriminate))).
Defined.

Lemma method1_users_come_from_clicks_witness :
  Forall from_click_event
    [ {| first_name := VStr ""; last_name := VStr "";
         email := VStr "Ann@Example.com";
         event_time := VStr "2024-05-01T10:00:00Z";
         event_type := VStr "Clicked Link" |} ].
Proof.
  exact (proj1 (method1_users_come_from_clicks
                  [event "Clicked Link" "Ann@Example.com"] (_, _) eq_refl)).
Defined.

Lemma read_targets_are_clean_witness :
  read_targets_csv (Table (Some header) sheet)
    = Returned [target_of "Ann" "Doe" "ann@example.com" "CEO"] /\
  Forall kept_target [target_of "Ann" "Doe" "ann@example.com" "CEO"].
Proof.
  split; [ reflexivity | ].
  exact (proj1 (read_targets_are_clean (Some header) sheet _ eq_refl)).
Defined.

Lemma read_targets_row_by_row_witness :
  exists targets1 targets2,
    read_targets_csv (Table (Some header) [short_row]) = Returned targets1 /\
    read_targets_csv (Table (Some header) [row "Bob" "Doe" "Bob@example.com" "CTO"])
      = Returned targets2 /\
    read_targets_csv (Table (Some header) [short_row; row "Bob" "Doe" "Bob@example.com" "CTO"])
      = Returned (targets1 ++ targets2)%list.
Proof.
  apply (read_targets_row_by_row header [short_row] [row "Bob" "Doe" "Bob@example.com" "CTO"]
           eq_refl).
  - constructor; [ | constructor ]. cbn. intros k v.
    repeat (destruct (String.eqb k _); [ intros [= <-]; reflexivity | ]). discriminate.
  - constructor; [ | constructor ]. cbn. intros k v.
    repeat (destruct (String.eqb k _); [ intros [= <-]; reflexivity | ]). discriminate.
Defined.

Lemma existing_group_is_reused_witness :
  create_target_group stocked [target_of "Zed" "Zed" "zed@example.com" ""] "Targets-2024-05"
    = Returned (VDict staff).
Proof.
  apply (existing_group_is_reused stocked (VList [visitors; VDict staff]) (VDict staff)
           (VList [VDict ann; VDict bob; VDict cy]) [visitors] []
           [target_of "Zed" "Zed" "zed@example.com" ""] 3 "Targets-2024-05"
           eq_refl eq_refl).
  - constructor; [ | constructor ]. exists (VStr "Visitors"). split; reflexivity.
  - exists (VStr "Targets-2024-05"). split; reflexivity.
  - reflexivity.
  - reflexivity.
Defined.

Lemma new_group_holds_the_csv_targets_witness :
  create_target_group stocked [target_of "Ann" "Doe" "ann@example.com" "CEO"] "Targets-2024-06"
    = Returned (group_data "Targets-2024-06" [target_of "Ann" "Doe" "ann@example.com" "CEO"]).
Proof.
  apply (new_group_holds_the_csv_targets stocked (Some header) sheet
           [target_of "Ann" "Doe" "ann@example.com" "CEO"] [visitors; VDict staff]
           (VList [visitors; VDict staff]) "Targets-2024-06" eq_refl eq_refl eq_refl).
  constructor; [ | constructor; [ | constructor ] ].
  - exists (VStr "Visitors"). split; reflexivity.
  - exists (VStr "Targets-2024-05"). split; reflexivity.
Defined.

Lemma user_without_email_stops_the_round_witness :
  let run := send_warning_emails lossy 0
               [user_dict found_ann; VDict [("first_name", VStr "Nobody")]; user_dict found_bob] in
  snd run = Raise KeyError /\ attempted (fst run) = [VStr "ann@example.com"].
Proof.
  exact (user_without_email_stops_the_round lossy 0 [found_ann]
           (VDict [("first_name", VStr "Nobody")]) [user_dict found_bob] KeyError eq_refl).
Defined.

Lemma debug_scan_lists_every_extracted_user_witness :
  incl [ {| first_name := VStr ""; last_name := VStr "";
            email := VStr "ann@example.com";
            event_time := VStr "2024-05-01T10:00:00Z";
            event_type := VStr "alt_Clicked Link" |} ]
       (match debug_scan colliding [] with Ok listed => listed | Raise _ => [] end).
Proof.
  exact (debug_scan_lists_every_extracted_user colliding (_, _) _ eq_refl eq_refl).
Defined.

(** X17 and X18 on two users and a transport that loses every second mail:
    both are tried, four seconds are spent pausing. *)
Example both_users_are_tried :
  let run := send_warning_emails lossy 1 (map user_dict [found_ann; found_bob]) in
  fst run =
    [ Attempt (VStr "ann@example.com") (VStr "Ann") (VStr "Doe");
      NotWarned (VStr "ann@example.com");
      Pause 2;
      Attempt (VStr "bob@example.com") (VStr "Bob") (VStr "Doe");
      Warned (VStr "bob@example.com");
      Pause 2 ].
Proof. reflexivity. Qed.

(** X21 on a method in small letters and on one that does not exist. *)
Example patch_is_refused :
  forall http', make_request (new_client "https://gophish.example:3333/" http')
                  "patch" "campaigns/7" None = UnsupportedMethod.
Proof. reflexivity. Qed.
